(** * vocabularytest: the word-embedding store of the MCP server

    A shallow embedding of [mcp-server/src/embeddings.py]: the cosine
    similarity on Python floats (IEEE 754 binary64, here Rocq's primitive
    floats), and the [WordEmbeddingStore] class with its two insertion-ordered
    dictionaries, the embedding provider it calls and the exceptions it
    catches. *)

From Stdlib Require Import Floats ZArith List String Bool Arith Lia.
From Stdlib Require Import Permutation Sorted DecimalString.
From Stdlib Require Import Reals Lra.
Import ListNotations.

#[local] Close Scope R_scope.
#[local] Open Scope string_scope.
#[local] Open Scope list_scope.

(** ** Python values the module needs *)

(** The exceptions that can travel through the module. [ProviderError]
    stands for whatever [genai.embed_content] raises. *)
Inductive exn : Type :=
| ProviderError
| KeyError
| ZeroDivisionError
| ValueError.

(** A Python expression either yields a value or raises. *)
Inductive result (A : Type) : Type :=
| Ok (a : A)
| Raise (e : exn).

Arguments Ok {A} a.
Arguments Raise {A} e.

Definition rbind {A B : Type} (r : result A) (k : A -> result B) : result B :=
  match r with
  | Ok a => k a
  | Raise e => Raise e
  end.

Declare Scope py_scope.
Delimit Scope py_scope with py.
Notation "x <- r ;; k" := (rbind r (fun x => k))
  (at level 61, r at next level, right associativity) : py_scope.

(** ** The arithmetic of [cosine_similarity]

    The function is written once, over the operations Python's [float]
    provides, and read at two instances: [binary64], the arithmetic the
    program runs with, and [exact], the real numbers its formula is about. *)
Class Arith (F : Type) : Type := {
  f_zero : F;
  f_add : F -> F -> F;
  f_mul : F -> F -> F;
  f_div : F -> F -> F;
  f_sqrt : F -> F;
  f_eqb : F -> F -> bool;
  f_ltb : F -> F -> bool
}.

Section CosineSimilarity.
Context {F : Type} `{Arith F}.

(** [sum(iterable)]: the items are added from left to right to the start
    value [0], which float addition reads as [0.0]. (CPython 3.12 and later
    carry a compensation term along, which changes none of the examples
    below.) *)
Definition py_sum (l : list F) : F := fold_left f_add l f_zero.

(** [math.sqrt(x)] raises [ValueError] (math domain error) below zero. *)
Definition math_sqrt (x : F) : result F :=
  if f_ltb x f_zero then Raise ValueError else Ok (f_sqrt x).

(** [x / y] on floats raises [ZeroDivisionError] when [y == 0]. *)
Definition py_truediv (x y : F) : result F :=
  if f_eqb y f_zero then Raise ZeroDivisionError else Ok (f_div x y).

(** [sum(a * b for a, b in zip(vec1, vec2))]; [zip] stops at the shorter
    vector. *)
Definition dot_product (vec1 vec2 : list F) : F :=
  py_sum (map (fun ab => f_mul (fst ab) (snd ab)) (combine vec1 vec2)).

(** [sum(a * a for a in vec)] *)
Definition sum_squares (vec : list F) : F :=
  py_sum (map (fun a => f_mul a a) vec).

Definition cosine_similarity (vec1 vec2 : list F) : result F :=
  (let dot := dot_product vec1 vec2 in
   magnitude1 <- math_sqrt (sum_squares vec1) ;;
   magnitude2 <- math_sqrt (sum_squares vec2) ;;
   if f_eqb magnitude1 f_zero || f_eqb magnitude2 f_zero
   then Ok f_zero
   else py_truediv dot (f_mul magnitude1 magnitude2))%py.
End CosineSimilarity.

(** Python floats: IEEE 754 binary64 with round-to-nearest-even. *)
#[global] Instance binary64 : Arith float := {
  f_zero := 0%float;
  f_add := PrimFloat.add;
  f_mul := PrimFloat.mul;
  f_div := PrimFloat.div;
  f_sqrt := PrimFloat.sqrt;
  f_eqb := PrimFloat.eqb;
  f_ltb := PrimFloat.ltb
}.

(** The same operations without rounding, overflow or underflow. *)
#[global] Instance exact : Arith R := {
  f_zero := 0%R;
  f_add := Rplus;
  f_mul := Rmult;
  f_div := Rdiv;
  f_sqrt := R_sqrt.sqrt;
  f_eqb := fun x y => if Req_EM_T x y then true else false;
  f_ltb := fun x y => if Rlt_dec x y then true else false
}.

(** ** Python containers *)

(** A [dict] keeps its keys in insertion order; assigning to a key that is
    present replaces the value where it stands, a new key goes to the end. *)
Definition dict (V : Type) : Type := list (string * V).

Fixpoint dict_get {V : Type} (d : dict V) (k : string) : option V :=
  match d with
  | [] => None
  | (k', v) :: d' => if String.eqb k' k then Some v else dict_get d' k
  end.

(** [d[k]] *)
Definition dict_getitem {V : Type} (d : dict V) (k : string) : result V :=
  match dict_get d k with
  | Some v => Ok v
  | None => Raise KeyError
  end.

(** [d.get(k, default)] *)
Definition dict_get_default {V : Type} (d : dict V) (k : string) (default : V) : V :=
  match dict_get d k with
  | Some v => v
  | None => default
  end.

(** [d[k] = v] *)
Fixpoint dict_setitem {V : Type} (d : dict V) (k : string) (v : V) : dict V :=
  match d with
  | [] => [(k, v)]
  | (k', v') :: d' =>
      if String.eqb k' k then (k, v) :: d' else (k', v') :: dict_setitem d' k v
  end.

Definition dict_keys {V : Type} (d : dict V) : list string := map fst d.

(** [l[:stop]]: a negative [stop] counts from the end of the list. *)
Definition slice_to {A : Type} (l : list A) (stop : Z) : list A :=
  if (stop <? 0)%Z
  then firstn (List.length l - Z.to_nat (- stop)) l
  else firstn (Z.to_nat stop) l.

(** [list.sort(key=..., reverse=...)] compares keys with [<] only and is
    stable. It is modelled by the insertion of each item, from left to right,
    behind the items of the sorted run that are not greater (the place
    CPython's [binarysort] finds); with [reverse=True] CPython reverses the
    list, sorts it ascending and reverses it again, which keeps equal keys in
    their original order. On keys that [<] orders totally every stable sort
    yields this list. *)
Section ListSort.
Context {A K : Type} (key : A -> K) (lt : K -> K -> bool).

Fixpoint insert_sorted (x : A) (run : list A) : list A :=
  match run with
  | [] => [x]
  | y :: run' =>
      if lt (key x) (key y) then x :: run else y :: insert_sorted x run'
  end.

Definition binarysort (l : list A) : list A :=
  fold_left (fun run x => insert_sorted x run) l [].

Definition list_sort (reverse : bool) (l : list A) : list A :=
  if reverse then rev (binarysort (rev l)) else binarysort l.
End ListSort.

(** ** The store *)

(** The value [{"meaning": ..., "status": ...}] kept for a word. *)
Record Meta : Type := { meaning : string; status : string }.

Record WordEmbeddingStore : Type := {
  embeddings : dict (list float);
  words : dict Meta
}.

(** An item of the list [search_similar_words] returns. *)
Record ScoredWord : Type := {
  s_word : string;
  s_meaning : string;
  s_status : string;
  similarity : float
}.

(** An item of the list [get_all_words] returns. *)
Record WordInfo : Type := {
  w_word : string;
  w_meaning : string;
  w_status : string
}.

(** What a method can read and change: the store object and the provider,
    of which the texts sent so far are recorded. *)
Record World : Type := {
  word_store : WordEmbeddingStore;
  requests : list string
}.

(** A method body: it runs in a world, returns or raises, and leaves a
    world behind. Nothing is rolled back when it raises. *)
Definition M (A : Type) : Type := World -> result A * World.

Definition ret {A : Type} (a : A) : M A := fun w => (Ok a, w).
Definition raise {A : Type} (e : exn) : M A := fun w => (Raise e, w).
Definition lift {A : Type} (r : result A) : M A := fun w => (r, w).

Definition bind {A B : Type} (m : M A) (k : A -> M B) : M B :=
  fun w =>
    match m w with
    | (Ok a, w') => k a w'
    | (Raise e, w') => (Raise e, w')
    end.

(** [try: body except Exception as e: handler] *)
Definition try_except {A : Type} (body : M A) (handler : exn -> M A) : M A :=
  fun w =>
    match body w with
    | (Ok a, w') => (Ok a, w')
    | (Raise e, w') => handler e w'
    end.

Declare Scope m_scope.
Delimit Scope m_scope with M.
Notation "x <- m ;; k" := (bind m (fun x => k))
  (at level 61, m at next level, right associativity) : m_scope.
Notation "m ;; k" := (bind m (fun _ => k))
  (at level 61, right associativity) : m_scope.

(** [for x in l: body(x)] *)
Fixpoint for_each {A : Type} (l : list A) (body : A -> M unit) : M unit :=
  match l with
  | [] => ret tt
  | x :: l' => (body x ;; for_each l' body)%M
  end.

(** [acc = []; for x in l: acc.append(body(x))] *)
Fixpoint for_append {A B : Type} (l : list A) (body : A -> M B) : M (list B) :=
  match l with
  | [] => ret []
  | x :: l' => (b <- body x ;; bs <- for_append l' body ;; ret (b :: bs))%M
  end.

Definition get_store : M WordEmbeddingStore := fun w => (Ok (word_store w), w).

Definition set_embeddings (d : dict (list float)) : M unit :=
  fun w =>
    (Ok tt, {| word_store := {| embeddings := d; words := words (word_store w) |};
               requests := requests w |}).

Definition set_words (d : dict Meta) : M unit :=
  fun w =>
    (Ok tt, {| word_store := {| embeddings := embeddings (word_store w); words := d |};
               requests := requests w |}).

Section Store.
(** [genai.embed_content(model=..., content=text)["embedding"]]: what the
    provider answers to [text] after the requests it has served. *)
Variable embed_content : list string -> string -> result (list float).

Definition genai_embed (text : string) : M (list float) :=
  fun w =>
    (embed_content (requests w) text,
     {| word_store := word_store w; requests := requests w ++ [text] |}).

(** The handler prints and re-raises. *)
Definition get_text_embedding (text : string) : M (list float) :=
  try_except (genai_embed text) (fun e => raise e).

Definition add_word (word meaning status : string) : M unit :=
  try_except
    (embedding <- get_text_embedding word ;;
     self <- get_store ;;
     set_embeddings (dict_setitem (embeddings self) word embedding) ;;
     self <- get_store ;;
     set_words (dict_setitem (words self) word
                  {| meaning := meaning; status := status |}))%M
    (fun _ => ret tt).

Definition add_words_batch (words_list : list (dict string)) : M unit :=
  for_each words_list (fun word_data =>
    english <- lift (dict_getitem word_data "english") ;;
    japanese <- lift (dict_getitem word_data "japanese") ;;
    add_word english japanese (dict_get_default word_data "status" "new"))%M.

Definition search_similar_words (target_text : string) (limit : Z)
  : M (list ScoredWord) :=
  (self <- get_store ;;
   match embeddings self with
   | [] => ret []
   | _ :: _ =>
       try_except
         (target_embedding <- get_text_embedding target_text ;;
          self <- get_store ;;
          similarities <- for_append (embeddings self) (fun item =>
            let '(word, embedding) := item in
            sim <- lift (cosine_similarity target_embedding embedding) ;;
            self <- get_store ;;
            data <- lift (dict_getitem (words self) word) ;;
            ret {| s_word := word;
                   s_meaning := meaning data;
                   s_status := status data;
                   similarity := sim |}) ;;
          ret (slice_to (list_sort similarity PrimFloat.ltb true similarities) limit))
         (fun _ => ret [])
   end)%M.

Definition get_all_words : M (list WordInfo) :=
  (self <- get_store ;;
   ret (map (fun item => {| w_word := fst item;
                            w_meaning := meaning (snd item);
                            w_status := status (snd item) |})
          (words self)))%M.

Definition clear : M unit :=
  (set_embeddings [] ;; set_words [])%M.
End Store.

(** [WordEmbeddingStore()] before any request was made. *)
Definition new_world : World :=
  {| word_store := {| embeddings := []; words := [] |}; requests := [] |}.

(** A provider used in the examples: it fails on the text ["???"], answers
    the words it knows with a fixed vector and anything else with [[1.0; 1.0]]. *)
Definition sample_provider (_ : list string) (text : string) : result (list float) :=
  if String.eqb text "???" then Raise ProviderError
  else if String.eqb text "go" then Ok [1%float; 0%float]
  else if String.eqb text "run" then Ok [0%float; 1%float]
  else if String.eqb text "walk" then Ok [1%float; 2%float]
  else if String.eqb text "huge" then Ok [0x1p600%float; 0%float]
  else Ok [1%float; 1%float].

Definition entry (english japanese : string) : dict string :=
  [("english", english); ("japanese", japanese)].

Definition sample_world : World :=
  snd (add_words_batch sample_provider
         [entry "go" "iku"; entry "run" "hashiru"; entry "walk" "aruku"] new_world).

(** ** The request handlers of [server.py]

    A handler reads the fields of [request.get_json()] and answers with
    [jsonify(...)] and a status code. The body is taken as parsed, each field
    absent or of the type the handler expects; the store is the module's
    [word_store]. *)

#[local] Unset Elimination Schemes.
Inductive json : Type :=
| JNull
| JBool (b : bool)
| JInt (n : Z)
| JFloat (x : float)
| JStr (s : string)
| JList (l : list json)
| JDict (d : list (string * json)).
#[local] Set Elimination Schemes.

Record Body : Type := {
  b_user_id : option string;
  b_words : option (list (dict string));
  b_text : option string;
  b_limit : option Z
}.

(** The truth value of [data.get(key)]: [None] and [""] are false. *)
Definition truthy (v : option string) : bool :=
  match v with
  | Some s => negb (String.eqb s "")
  | None => false
  end.

(** The string a field holds once it has passed the test [if not v]. *)
Definition field_value (v : option string) : string :=
  match v with
  | Some s => s
  | None => ""
  end.

(** [f"{v}"] *)
Definition format_str (v : option string) : string :=
  match v with
  | Some s => s
  | None => "None"
  end.

(** [f"{n}"] *)
Definition format_nat (n : nat) : string := NilZero.string_of_uint (Nat.to_uint n).

Definition word_info_json (i : WordInfo) : json :=
  JDict [("word", JStr (w_word i));
         ("meaning", JStr (w_meaning i));
         ("status", JStr (w_status i))].

Section Server.
Variable embed_content : list string -> string -> result (list float).
(** [round(x, 3)] and [str(e)], which are not modelled. *)
Variable round3 : float -> float.
Variable str_exn : exn -> string.

Definition related_word (item : ScoredWord) : json :=
  JDict [("english", JStr (s_word item));
         ("japanese", JStr (s_meaning item));
         ("status", JStr (s_status item));
         ("similarity", JFloat (round3 (similarity item)))].

(** [except Exception as e: return jsonify({'error': str(e)}), 500] *)
Definition internal_error (e : exn) : M (json * nat) :=
  ret (JDict [("error", JStr (str_exn e))], 500).

Definition load_user_words (data : Body) : M (json * nat) :=
  try_except
    (let user_id := b_user_id data in
     let words := match b_words data with Some ws => ws | None => [] end in
     if negb (truthy user_id)
     then ret (JDict [("error", JStr "user_id is required")], 400)
     else
       (clear ;;
        add_words_batch embed_content words ;;
        ret (JDict [("success", JBool true);
                    ("message",
                     JStr (String.append "Loaded "
                            (String.append (format_nat (List.length words))
                               (String.append " words for user "
                                  (format_str user_id)))))],
             200))%M)
    internal_error.

Definition search_related_words (data : Body) : M (json * nat) :=
  try_except
    (let user_id := b_user_id data in
     let text := b_text data in
     let limit := match b_limit data with Some n => n | None => 3%Z end in
     if negb (truthy user_id) || negb (truthy text)
     then ret (JDict [("error", JStr "user_id and text are required")], 400)
     else
       (similar_words <- search_similar_words embed_content (field_value text) limit ;;
        match similar_words with
        | [] => ret (JDict [("related_words", JList []);
                            ("message", JStr "No similar words found")],
                     200)
        | _ :: _ =>
            ret (JDict [("related_words", JList (map related_word similar_words))], 200)
        end)%M)
    internal_error.

Definition get_user_word_list (data : Body) : M (json * nat) :=
  try_except
    (let user_id := b_user_id data in
     if negb (truthy user_id)
     then ret (JDict [("error", JStr "user_id is required")], 400)
     else
       (all_words <- get_all_words ;;
        ret (JDict [("user_id", JStr (format_str user_id));
                    ("total_words", JInt (Z.of_nat (List.length all_words)));
                    ("words", JList (map word_info_json all_words))],
             200))%M)
    internal_error.

Definition health : M (json * nat) :=
  ret (JDict [("status", JStr "ok")], 200).
End Server.

(** ** Vocabulary of the statements *)

(** [x] is not a zero and, when finite, at least [2^(k-1)] in magnitude. *)
Definition sf_magnitude_ge (k : Z) (x : spec_float) : Prop :=
  match x with
  | S754_zero _ => False
  | S754_finite _ m e => (k <= Z.log2 (Zpos m) + 1 + e)%Z
  | S754_infinity _ | S754_nan => True
  end.

Definition sf_is_zero (x : spec_float) : bool :=
  match x with S754_zero _ => true | _ => false end.

(** [x < 0] is false: [x] is a zero, a NaN, or positive. *)
Definition sf_not_neg (x : spec_float) : bool :=
  match x with
  | S754_infinity true | S754_finite true _ _ => false
  | _ => true
  end.

Definition sf_is_nan (x : spec_float) : bool :=
  match x with S754_nan => true | _ => false end.

Ltac sf_compare_cases :=
  repeat match goal with
  | |- context [Z.compare ?a ?b] => destruct (Z.compare_spec a b)
  | |- context [Pos.compare_cont Eq ?a ?b] =>
      change (Pos.compare_cont Eq a b) with (Pos.compare a b);
      destruct (Pos.compare_spec a b)
  end; simpl; try congruence; try lia.

(** [math.sqrt(sum(a * a for a in vec))], when [math.sqrt] returns. *)
Definition magnitude (vec : list float) : float :=
  PrimFloat.sqrt (sum_squares vec).

(** [x] is a number: [x == x] in Python. *)
Definition not_nan (x : float) : Prop := (x =? x)%float = true.

(** The two mappings hold the same keys. *)
Definition lockstep (self : WordEmbeddingStore) : Prop :=
  forall k : string, In k (dict_keys (embeddings self)) <-> In k (dict_keys (words self)).

(** What the loop of [search_similar_words] appends for one item. *)
Definition score_item (self : WordEmbeddingStore) (target_embedding : list float)
    (item : string * list float) : result ScoredWord :=
  (sim <- cosine_similarity target_embedding (snd item) ;;
   data <- dict_getitem (words self) (fst item) ;;
   Ok {| s_word := fst item;
         s_meaning := meaning data;
         s_status := status data;
         similarity := sim |})%py.

Fixpoint collect {A B : Type} (f : A -> result B) (l : list A) : result (list B) :=
  match l with
  | [] => Ok []
  | x :: l' => (b <- f x ;; bs <- collect f l' ;; Ok (b :: bs))%py
  end.

(** The list [similarities] before it is sorted, in the order of the
    embedding mapping. *)
Definition similarities (self : WordEmbeddingStore) (target_embedding : list float)
  : result (list ScoredWord) :=
  collect (score_item self target_embedding) (embeddings self).

(** The sorted list, before it is cut to [limit]; empty when the loop raised. *)
Definition ranking (self : WordEmbeddingStore) (target_embedding : list float)
  : list ScoredWord :=
  match similarities self target_embedding with
  | Ok sims => list_sort similarity PrimFloat.ltb true sims
  | Raise _ => []
  end.

(** A world in which a similarity is not a number: the squares of the
    embedding of ["huge"] overflow. *)
Definition overflow_world : World :=
  snd (add_words_batch sample_provider
         [entry "huge" "kyodai"; entry "go" "iku"] new_world).

(** An entry [{"english": ..., "japanese": ...}], with ["status"] or not. *)
Definition word_data (e : string * string * option string) : dict string :=
  let '(english, japanese, status) := e in
  [("english", english); ("japanese", japanese)]
  ++ match status with Some s => [("status", s)] | None => [] end.

Definition english (e : string * string * option string) : string := fst (fst e).

(** The provider answered with a vector. *)
Definition returned {A : Type} (r : result A) : Prop :=
  match r with Ok _ => True | Raise _ => False end.

(** One [add_word] of the loop of [add_words_batch]. *)
Definition add_entry (embed_content : list string -> string -> result (list float))
  (w : World) (e : string * string * option string) : World :=
  let '(english, japanese, status) := e in
  snd (add_word embed_content english japanese
         (match status with Some s => s | None => "new" end) w).

(** The entry [get_all_words] makes of an item of [self.words]. *)
Definition word_info (item : string * Meta) : WordInfo :=
  {| w_word := fst item; w_meaning := meaning (snd item); w_status := status (snd item) |}.

(** Each word is a key once, and at the same place in both mappings. *)
Definition keys_in_order (self : WordEmbeddingStore) : Prop :=
  NoDup (dict_keys (embeddings self)) /\
  dict_keys (embeddings self) = dict_keys (words self).

(** * Facts about binary64

    The primitive floats are specified by [Prim2SF] and the operations of
    [SpecFloat]; the lemmas below are read off that specification. *)

#[local] Open Scope Z_scope.

Lemma digits2_pos_size (p : positive) : digits2_pos p = Pos.size p.
Proof. induction p; simpl; congruence. Qed.

Lemma digits2_log2 (p : positive) : Zpos (digits2_pos p) = Z.log2 (Zpos p) + 1.
Proof.
  rewrite digits2_pos_size.
  destruct p; simpl; rewrite ?Pos2Z.inj_succ; lia.
Qed.

Lemma shr_1_m (r : shr_record) :
  0 <= shr_m r -> shr_m (shr_1 r) = Z.div2 (shr_m r).
Proof.
  destruct r as [m b s]; simpl.
  destruct m as [|[p|p|]|p]; simpl; intros; try reflexivity; lia.
Qed.

Lemma iter_shr_1_m (n : positive) : forall r : shr_record,
  0 <= shr_m r ->
  shr_m (SpecFloat.iter_pos shr_1 n r) = Z.shiftr (shr_m r) (Zpos n).
Proof.
  induction n as [n IH|n IH|]; intros r Hr; simpl SpecFloat.iter_pos.
  - assert (H1 : 0 <= shr_m (shr_1 r)).
    { rewrite shr_1_m by assumption. rewrite Z.div2_nonneg. assumption. }
    assert (H2 : 0 <= shr_m (SpecFloat.iter_pos shr_1 n (shr_1 r))).
    { rewrite IH by assumption. apply Z.shiftr_nonneg. assumption. }
    rewrite IH, IH, shr_1_m by assumption.
    rewrite Z.div2_spec, !Z.shiftr_shiftr by lia.
    f_equal. lia.
  - assert (H2 : 0 <= shr_m (SpecFloat.iter_pos shr_1 n r)).
    { rewrite IH by assumption. apply Z.shiftr_nonneg. assumption. }
    rewrite IH, IH by assumption.
    rewrite Z.shiftr_shiftr by lia. f_equal. lia.
  - rewrite shr_1_m by assumption. apply Z.div2_spec.
Qed.

Lemma shr_record_of_loc_m (m : Z) (l : location) : shr_m (shr_record_of_loc m l) = m.
Proof. destruct l as [|[]]; reflexivity. Qed.

Lemma Zdigits2_log2 (m : Z) : 0 < m -> Zdigits2 m = Z.log2 m + 1.
Proof. destruct m; try lia. intros _. apply digits2_log2. Qed.

(** Truncation to the format keeps the magnitude of a number that is not
    below the smallest subnormal. *)
Lemma shr_fexp_magnitude (m e : Z) (l : location) :
  0 < m -> -1074 < Z.log2 m + 1 + e ->
  0 < shr_m (fst (shr_fexp prec emax m e l)) /\
  Z.log2 (shr_m (fst (shr_fexp prec emax m e l))) + 1 + snd (shr_fexp prec emax m e l)
  = Z.log2 m + 1 + e.
Proof.
  intros Hm Hk. unfold shr_fexp, shr.
  rewrite (Zdigits2_log2 m Hm).
  unfold fexp, SpecFloat.emin, prec, emax.
  destruct (Z.max (Z.log2 m + 1 + e - 53) (3 - 1024 - 53) - e) as [|n|n] eqn:Hn;
    simpl fst; simpl snd; rewrite ?shr_record_of_loc_m; try (split; [assumption|reflexivity]).
  rewrite iter_shr_1_m by (rewrite shr_record_of_loc_m; lia).
  rewrite shr_record_of_loc_m.
  assert (Hlog : Z.log2 (Z.shiftr m (Zpos n)) = Z.log2 m - Zpos n).
  { rewrite Z.log2_shiftr by assumption. lia. }
  split.
  - assert (H0 : 0 <= Z.shiftr m (Zpos n)) by (apply Z.shiftr_nonneg; lia).
    assert (H1 : Z.shiftr m (Zpos n) <> 0).
    { rewrite Z.shiftr_eq_0_iff. lia. }
    lia.
  - rewrite Hlog. lia.
Qed.

Lemma round_nearest_even_bounds (m : Z) (l : location) :
  0 < m ->
  0 < round_nearest_even m l /\ Z.log2 m <= Z.log2 (round_nearest_even m l).
Proof.
  intros Hm.
  assert (Hs : Z.log2 m <= Z.log2 (m + 1)) by (apply Z.log2_le_mono; lia).
  unfold round_nearest_even.
  destruct l as [|[]]; try destruct (Z.even m); lia.
Qed.

(** Rounding never takes a number that is at least the smallest subnormal
    to zero, nor below the power of two under it. *)
Lemma binary_round_aux_magnitude (s : bool) (m e : Z) (l : location) :
  0 < m -> -1074 < Z.log2 m + 1 + e ->
  sf_magnitude_ge (Z.log2 m + 1 + e) (binary_round_aux prec emax s m e l).
Proof.
  intros Hm Hk. unfold binary_round_aux.
  destruct (shr_fexp_magnitude m e l Hm Hk) as [Hp1 He1].
  destruct (shr_fexp prec emax m e l) as [mrs1 e1]. simpl fst in *; simpl snd in *.
  destruct (round_nearest_even_bounds (shr_m mrs1) (loc_of_shr_record mrs1) Hp1)
    as [Hp2 Hl2].
  set (m2 := round_nearest_even (shr_m mrs1) (loc_of_shr_record mrs1)) in *.
  assert (Hk2 : -1074 < Z.log2 m2 + 1 + e1) by lia.
  destruct (shr_fexp_magnitude m2 e1 loc_Exact Hp2 Hk2) as [Hp3 He3].
  destruct (shr_fexp prec emax m2 e1 loc_Exact) as [mrs3 e3].
  simpl fst in *; simpl snd in *.
  destruct (shr_m mrs3) as [|p|p]; try lia.
  destruct (e3 <=? emax - prec); unfold sf_magnitude_ge; lia.
Qed.

Lemma sf_magnitude_ge_weaken (k k' : Z) (x : spec_float) :
  k' <= k -> sf_magnitude_ge k x -> sf_magnitude_ge k' x.
Proof. destruct x; simpl; trivial. lia. Qed.

Lemma valid_binary_exponent (s : bool) (m : positive) (e : Z) :
  valid_binary (S754_finite s m e) = true -> -1074 <= e.
Proof.
  unfold SpecFloat.valid_binary, SpecFloat.bounded, canonical_mantissa, fexp,
    SpecFloat.emin, prec, emax.
  intros H. apply andb_prop in H. destruct H as [H _].
  apply Z.eqb_eq in H. lia.
Qed.

(** The integer square root of [m] has about half the bits of [m]. *)
Lemma log2_sqrtrem (m q r : Z) :
  0 < m -> Z.sqrtrem m = (q, r) -> 0 < q /\ Z.log2 m < 2 * Z.log2 q + 2.
Proof.
  intros Hm Hqr.
  pose proof (Z.sqrtrem_spec m (Z.lt_le_incl _ _ Hm)) as Hspec.
  rewrite Hqr in Hspec. destruct Hspec as [Heq Hr].
  assert (Hq : 0 < q) by nia.
  split; [assumption|].
  pose proof (Z.log2_spec m Hm) as [Hlo _].
  pose proof (Z.log2_spec q Hq) as [_ Hhi].
  pose proof (Z.log2_nonneg q) as Hq0.
  pose proof (Z.log2_nonneg m) as Hm0.
  apply (Z.pow_lt_mono_r_iff 2); [lia|lia|].
  replace (2 * Z.log2 q + 2) with (Z.succ (Z.log2 q) + Z.succ (Z.log2 q)) by lia.
  rewrite Z.pow_add_r by lia.
  nia.
Qed.

Lemma SFsqrt_core_magnitude (mx : positive) (ex q e' : Z) (l : location) :
  -1074 <= ex ->
  SFsqrt_core_binary prec emax (Zpos mx) ex = (q, e', l) ->
  0 < q /\ -536 <= Z.log2 q + 1 + e'.
Proof.
  intros Hex. unfold SFsqrt_core_binary.
  rewrite (Zdigits2_log2 (Zpos mx)) by lia.
  set (d := Z.log2 (Zpos mx) + 1).
  assert (Hd : 1 <= d) by (pose proof (Z.log2_nonneg (Zpos mx)); lia).
  rewrite !Z.div2_div.
  set (e0 := Z.min (fexp prec emax ((d + ex + 1) / 2)) (ex / 2)).
  assert (He0 : 2 * e0 <= ex).
  { pose proof (Z.le_min_r (fexp prec emax ((d + ex + 1) / 2)) (ex / 2)).
    pose proof (Z.mul_div_le ex 2). subst e0. lia. }
  set (m' := match ex - 2 * e0 with
             | 0 => Zpos mx | Zpos _ => Z.shiftl (Zpos mx) (ex - 2 * e0) | Zneg _ => 0
             end).
  assert (Hm' : 0 < m' /\ Z.log2 m' = Z.log2 (Zpos mx) + (ex - 2 * e0)).
  { subst m'. destruct (ex - 2 * e0) as [|s|s] eqn:Hs; try lia.
    rewrite Z.log2_shiftl by lia. split; [|reflexivity].
    rewrite Z.shiftl_mul_pow2 by lia.
    apply Z.mul_pos_pos; [lia|]. apply Z.pow_pos_nonneg; lia. }
  destruct Hm' as [Hm'pos Hm'log].
  destruct (Z.sqrtrem m') as [q0 r0] eqn:Hqr.
  intros Heq. injection Heq as <- <- _.
  destruct (log2_sqrtrem m' q0 r0 Hm'pos Hqr) as [Hq Hlog].
  split; [assumption|]. lia.
Qed.

(** A square root is zero or at least [2^-537]. *)
Lemma SFsqrt_magnitude (x : spec_float) :
  valid_binary x = true ->
  sf_is_zero (SF64sqrt x) = false -> sf_magnitude_ge (-536) (SF64sqrt x).
Proof.
  intros Hv. unfold SF64sqrt, SFsqrt.
  destruct x as [s|[]| |[] mx ex]; simpl; trivial; try discriminate.
  intros _.
  destruct (SFsqrt_core_binary prec emax (Zpos mx) ex) as [[q e'] l] eqn:Hcore.
  apply valid_binary_exponent in Hv.
  destruct (SFsqrt_core_magnitude mx ex q e' l Hv Hcore) as [Hq Hk].
  apply (sf_magnitude_ge_weaken (Z.log2 q + 1 + e')); [assumption|].
  apply binary_round_aux_magnitude; [assumption|lia].
Qed.

(** The product of two numbers that are at least [2^-537] is not zero. *)
Lemma SFmul_magnitude (x y : spec_float) :
  sf_magnitude_ge (-536) x -> sf_magnitude_ge (-536) y ->
  sf_is_zero (SF64mul x y) = false.
Proof.
  unfold SF64mul, SFmul.
  destruct x as [sx|sx| |sx mx ex], y as [sy|sy| |sy my ey];
    cbn [sf_magnitude_ge sf_is_zero]; trivial; try contradiction.
  intros Hx Hy.
  assert (Hlog : Z.log2 (Zpos mx) + Z.log2 (Zpos my) <= Z.log2 (Zpos (mx * my))).
  { rewrite Pos2Z.inj_mul. apply Z.log2_mul_below; lia. }
  assert (Hr := binary_round_aux_magnitude (xorb sx sy) (Zpos (mx * my)) (ex + ey) loc_Exact).
  destruct (binary_round_aux prec emax (xorb sx sy) (Zpos (mx * my)) (ex + ey) loc_Exact);
    trivial.
  exfalso. apply Hr; lia.
Qed.

Lemma eqb_zero_spec (x : float) : (x =? 0)%float = sf_is_zero (Prim2SF x).
Proof.
  rewrite FloatAxioms.eqb_spec. change (Prim2SF 0%float) with (S754_zero false).
  destruct (Prim2SF x) as [s|s| |s m e]; try destruct s; reflexivity.
Qed.

(** The divisor [magnitude1 * magnitude2] of [cosine_similarity] is zero
    only if one of the magnitudes is: square roots do not underflow. *)
Lemma sqrt_mul_sqrt_nonzero (x y : float) :
  (PrimFloat.sqrt x =? 0)%float = false -> (PrimFloat.sqrt y =? 0)%float = false ->
  (PrimFloat.sqrt x * PrimFloat.sqrt y =? 0)%float = false.
Proof.
  rewrite !eqb_zero_spec, mul_spec, !sqrt_spec. intros Hx Hy.
  apply SFmul_magnitude; apply SFsqrt_magnitude; auto using Prim2SF_valid.
Qed.

Lemma binary_round_aux_not_neg (m e : Z) (l : location) :
  sf_not_neg (binary_round_aux prec emax false m e l) = true.
Proof.
  unfold binary_round_aux.
  destruct (shr_fexp prec emax m e l) as [mrs1 e1].
  destruct (shr_fexp prec emax _ e1 loc_Exact) as [mrs2 e2].
  destruct (shr_m mrs2); try reflexivity.
  destruct (e2 <=? emax - prec); reflexivity.
Qed.

Lemma SFmul_self_not_neg (x : spec_float) : sf_not_neg (SF64mul x x) = true.
Proof.
  unfold SF64mul, SFmul. destruct x as [s|s| |s m e]; try destruct s; simpl; trivial;
    apply binary_round_aux_not_neg.
Qed.

Lemma SFadd_not_neg (x y : spec_float) :
  sf_not_neg x = true -> sf_not_neg y = true -> sf_not_neg (SF64add x y) = true.
Proof.
  unfold SF64add, SFadd.
  destruct x as [sx|sx| |sx mx ex], y as [sy|sy| |sy my ey];
    try destruct sx; try destruct sy; simpl; trivial; try discriminate.
  intros _ _. unfold binary_round.
  destruct (shl_align _ _ _) as [mz ez]. apply binary_round_aux_not_neg.
Qed.

Lemma ltb_zero_spec (x : float) : (x <? 0)%float = negb (sf_not_neg (Prim2SF x)).
Proof.
  rewrite ltb_spec. change (Prim2SF 0%float) with (S754_zero false).
  destruct (Prim2SF x) as [s|s| |s m e]; try destruct s; reflexivity.
Qed.

(** *** The order of the floats that are not NaN *)

Lemma SFltb_asym (x y : spec_float) : SFltb x y = true -> SFltb y x = false.
Proof.
  unfold SFltb, SFcompare.
  destruct x as [sx|sx| |sx mx ex], y as [sy|sy| |sy my ey];
    try destruct sx; try destruct sy; simpl; try congruence; sf_compare_cases.
Qed.

Lemma SFltb_false_leb (x y : spec_float) :
  sf_is_nan x = false -> sf_is_nan y = false ->
  SFltb y x = false -> SFleb x y = true.
Proof.
  unfold SFltb, SFleb, SFcompare.
  destruct x as [sx|sx| |sx mx ex], y as [sy|sy| |sy my ey];
    try destruct sx; try destruct sy; simpl; try congruence; sf_compare_cases.
Qed.

Lemma SFltb_negtrans (x y z : spec_float) :
  sf_is_nan x = false -> sf_is_nan y = false -> sf_is_nan z = false ->
  SFltb y x = false -> SFltb z y = false -> SFltb z x = false.
Proof.
  unfold SFltb, SFcompare.
  destruct x as [sx|sx| |sx mx ex], y as [sy|sy| |sy my ey], z as [sz|sz| |sz mz ez];
    try destruct sx; try destruct sy; try destruct sz; simpl; try congruence;
    sf_compare_cases.
Qed.

Lemma SFeqb_not_ltb (x y k : spec_float) :
  SFeqb x k = true -> SFeqb y k = true -> SFltb x y = false.
Proof.
  unfold SFltb, SFeqb, SFcompare.
  destruct x as [sx|sx| |sx mx ex], y as [sy|sy| |sy my ey], k as [sk|sk| |sk mk ek];
    try destruct sx; try destruct sy; try destruct sk; simpl; try congruence;
    sf_compare_cases.
Qed.

Lemma eqb_refl_spec (x : float) : (x =? x)%float = negb (sf_is_nan (Prim2SF x)).
Proof.
  rewrite FloatAxioms.eqb_spec. unfold SFeqb, SFcompare.
  destruct (Prim2SF x) as [s|s| |s m e]; try destruct s; simpl; trivial;
    rewrite Z.compare_refl; change (Pos.compare_cont Eq m m) with (Pos.compare m m);
    rewrite Pos.compare_refl; reflexivity.
Qed.

#[local] Close Scope Z_scope.

(** * [cosine_similarity] on binary64 *)

Lemma fold_add_not_neg (l : list float) : forall acc : float,
  sf_not_neg (Prim2SF acc) = true ->
  Forall (fun x => sf_not_neg (Prim2SF x) = true) l ->
  sf_not_neg (Prim2SF (fold_left PrimFloat.add l acc)) = true.
Proof.
  induction l as [|x l IH]; intros acc Hacc Hl; simpl.
  - assumption.
  - inversion Hl as [|? ? Hx Hl']; subst.
    apply IH; [|assumption].
    rewrite add_spec. apply SFadd_not_neg; assumption.
Qed.

Lemma sum_squares_not_neg (vec : list float) :
  sf_not_neg (Prim2SF (sum_squares vec)) = true.
Proof.
  unfold sum_squares, py_sum. apply fold_add_not_neg; [reflexivity|].
  apply Forall_map, Forall_forall. intros a _. simpl.
  rewrite mul_spec. apply SFmul_self_not_neg.
Qed.

(** [math.sqrt] is never given a negative sum of squares. *)
Lemma math_sqrt_sum_squares (vec : list float) :
  math_sqrt (sum_squares vec) = Ok (magnitude vec).
Proof.
  unfold math_sqrt. simpl f_ltb. simpl f_zero.
  rewrite ltb_zero_spec, sum_squares_not_neg. reflexivity.
Qed.

(** The function, with the exceptions that cannot occur taken out. *)
Lemma cosine_similarity_eq (vec1 vec2 : list float) :
  cosine_similarity vec1 vec2 =
  Ok (if (magnitude vec1 =? 0)%float || (magnitude vec2 =? 0)%float
      then 0%float
      else (dot_product vec1 vec2 / (magnitude vec1 * magnitude vec2))%float).
Proof.
  unfold cosine_similarity. rewrite !math_sqrt_sum_squares. simpl rbind.
  simpl f_eqb. simpl f_zero. simpl f_mul.
  destruct (magnitude vec1 =? 0)%float eqn:H1; [reflexivity|].
  destruct (magnitude vec2 =? 0)%float eqn:H2; [reflexivity|].
  simpl orb. unfold py_truediv. simpl f_eqb. simpl f_zero. simpl f_div.
  unfold magnitude in *. rewrite sqrt_mul_sqrt_nonzero by assumption.
  reflexivity.
Qed.

Lemma combine_firstn_min {A B : Type} (l1 : list A) : forall l2 : list B,
  combine l1 l2 =
  combine (firstn (Nat.min (List.length l1) (List.length l2)) l1)
          (firstn (Nat.min (List.length l1) (List.length l2)) l2).
Proof.
  induction l1 as [|a l1 IH]; intros [|b l2]; simpl; try reflexivity.
  f_equal. apply IH.
Qed.

(** A vector of zeros, of either sign, has magnitude [0.0]. *)
Lemma magnitude_zero_vector (vec : list float) :
  Forall (fun a => (a =? 0)%float = true) vec -> magnitude vec = 0%float.
Proof.
  intros Hz. unfold magnitude, sum_squares, py_sum.
  assert (Hfold : forall acc, acc = 0%float ->
            fold_left f_add (map (fun a : float => f_mul a a) vec) acc = 0%float).
  { induction Hz as [|a l Ha _ IH]; intros acc Hacc; simpl; [assumption|].
    apply IH. subst acc. apply Prim2SF_inj. rewrite add_spec, mul_spec.
    rewrite eqb_zero_spec in Ha.
    destruct (Prim2SF a) as [[]|?| |? ? ?]; try discriminate; reflexivity. }
  simpl f_zero. rewrite Hfold; reflexivity.
Qed.

Example cosine_similarity_orthogonal :
  cosine_similarity [1%float; 0%float] [0%float; 1%float] = Ok 0%float.
Proof. reflexivity. Qed.

Example cosine_similarity_unequal_lengths :
  cosine_similarity [3%float; 4%float; 12%float] [1%float] = Ok 0x1.d89d89d89d89ep-3%float.
Proof. reflexivity. Qed.

Example cosine_similarity_overflow :
  cosine_similarity [0x1p600%float] [0x1p600%float] = Ok nan.
Proof. reflexivity. Qed.

Example cosine_similarity_underflow :
  cosine_similarity [0x1p-600%float] [0x1p-600%float] = Ok 0%float.
Proof. reflexivity. Qed.

(** C8: for two vectors of equal length, [cosine_similarity] returns [0.0]
    when the magnitude computed for either is zero, in particular when either
    is a vector of zeros, and it never raises [ZeroDivisionError]. *)
Theorem cosine_similarity_zero_magnitude (vec1 vec2 : list float) :
  List.length vec1 = List.length vec2 ->
  ((magnitude vec1 =? 0)%float = true \/ (magnitude vec2 =? 0)%float = true ->
   cosine_similarity vec1 vec2 = Ok 0%float) /\
  (Forall (fun a => (a =? 0)%float = true) vec1 \/
   Forall (fun b => (b =? 0)%float = true) vec2 ->
   cosine_similarity vec1 vec2 = Ok 0%float) /\
  cosine_similarity vec1 vec2 <> Raise ZeroDivisionError.
Proof.
  intros _. rewrite cosine_similarity_eq.
  assert (Hmag : (magnitude vec1 =? 0)%float = true \/ (magnitude vec2 =? 0)%float = true ->
                 Ok (if (magnitude vec1 =? 0)%float || (magnitude vec2 =? 0)%float
                     then 0%float
                     else (dot_product vec1 vec2 / (magnitude vec1 * magnitude vec2))%float)
                 = Ok 0%float).
  { intros [H1|H2].
    - rewrite H1. reflexivity.
    - rewrite H2, orb_true_r. reflexivity. }
  split; [exact Hmag|]. split; [|discriminate].
  intros [Hz|Hz]; apply Hmag; [left|right];
    rewrite (magnitude_zero_vector _ Hz); reflexivity.
Qed.

Lemma cosine_similarity_zero_magnitude_witness :
  List.length [0%float; (-0)%float] = List.length [1%float; 2%float] /\
  cosine_similarity [0%float; (-0)%float] [1%float; 2%float] = Ok 0%float.
Proof.
  split; [reflexivity|].
  apply (proj1 (cosine_similarity_zero_magnitude
                  [0%float; (-0)%float] [1%float; 2%float] eq_refl)).
  left. reflexivity.
Defined.

(** C10: [cosine_similarity] returns for every pair of vectors, of equal
    length or not: the dot product runs over the common prefix, each magnitude
    over the whole of its vector, and nothing is raised. *)
Theorem cosine_similarity_total (vec1 vec2 : list float) :
  cosine_similarity vec1 vec2 =
  Ok (if (magnitude vec1 =? 0)%float || (magnitude vec2 =? 0)%float
      then 0%float
      else (dot_product (firstn (Nat.min (List.length vec1) (List.length vec2)) vec1)
                        (firstn (Nat.min (List.length vec1) (List.length vec2)) vec2)
            / (PrimFloat.sqrt (sum_squares vec1) * PrimFloat.sqrt (sum_squares vec2)))%float).
Proof.
  rewrite cosine_similarity_eq. unfold dot_product.
  rewrite <- combine_firstn_min. reflexivity.
Qed.

(** * [cosine_similarity] in exact arithmetic *)

Section Exact.
#[local] Open Scope R_scope.











End Exact.





(** * The sort *)

Section StronglySortedFacts.
Context {A : Type}.

Lemma StronglySorted_app (R : A -> A -> Prop) (l1 l2 : list A) :
  StronglySorted R l1 -> StronglySorted R l2 ->
  (forall a b, In a l1 -> In b l2 -> R a b) ->
  StronglySorted R (l1 ++ l2).
Proof.
  induction l1 as [|x l1 IH]; intros H1 H2 H12; simpl; [assumption|].
  apply StronglySorted_inv in H1. destruct H1 as [H1 Hx].
  constructor.
  - apply IH; auto. intros a b Ha Hb. apply H12; simpl; auto.
  - apply Forall_app. split; [assumption|].
    apply Forall_forall. intros b Hb. apply H12; simpl; auto.
Qed.

Lemma StronglySorted_rev (R : A -> A -> Prop) (l : list A) :
  StronglySorted R l -> StronglySorted (fun a b => R b a) (rev l).
Proof.
  induction 1 as [|x l Hl IH Hx]; simpl; [constructor|].
  apply StronglySorted_app.
  - assumption.
  - repeat constructor.
  - intros a b Ha [<-|[]]. rewrite Forall_forall in Hx. apply Hx.
    apply in_rev. assumption.
Qed.

Lemma firstn_incl (n : nat) : forall (l : list A) (a : A),
  In a (firstn n l) -> In a l.
Proof.
  induction n as [|n IH]; intros [|x l] a; simpl; try tauto.
  intros [Hx|Hin]; auto.
Qed.

Lemma StronglySorted_firstn (R : A -> A -> Prop) (n : nat) : forall l : list A,
  StronglySorted R l -> StronglySorted R (firstn n l).
Proof.
  induction n as [|n IH]; intros l Hl; simpl; [constructor|].
  destruct l as [|x l]; [constructor|].
  apply StronglySorted_inv in Hl. destruct Hl as [Hl Hx].
  constructor; [apply IH; assumption|].
  rewrite Forall_forall in *. intros b Hb. apply Hx.
  eapply firstn_incl; eassumption.
Qed.

Lemma StronglySorted_impl (P : A -> Prop) (R R' : A -> A -> Prop) (l : list A) :
  (forall a b, P a -> P b -> R a b -> R' a b) ->
  Forall P l -> StronglySorted R l -> StronglySorted R' l.
Proof.
  intros HR HP Hl. induction Hl as [|x l Hl IH Hx]; [constructor|].
  inversion HP as [|? ? Hpx HP']; subst.
  constructor; [auto|].
  rewrite Forall_forall in *. intros b Hb. apply HR; auto.
Qed.
End StronglySortedFacts.

Section SortFacts.
Context {A K : Type} (key : A -> K) (lt eq : K -> K -> bool) (ok : K -> Prop).

Hypothesis lt_asym : forall a b, lt a b = true -> lt b a = false.
Hypothesis lt_negtrans : forall a b c, ok a -> ok b -> ok c ->
  lt b a = false -> lt c b = false -> lt c a = false.
Hypothesis eq_not_lt : forall a b k, eq a k = true -> eq b k = true -> lt a b = false.

(** [a] may stand before [b] in ascending order. *)
Let ascending (a b : A) : Prop := lt (key b) (key a) = false.
Let keys_ok (l : list A) : Prop := Forall (fun a => ok (key a)) l.

Lemma insert_sorted_perm (x : A) (run : list A) :
  Permutation (insert_sorted key lt x run) (x :: run).
Proof.
  induction run as [|y run IH]; simpl; [reflexivity|].
  destruct (lt (key x) (key y)); [reflexivity|].
  rewrite IH. apply perm_swap.
Qed.

Lemma insert_sorted_sorted (x : A) (run : list A) :
  keys_ok (x :: run) -> StronglySorted ascending run ->
  StronglySorted ascending (insert_sorted key lt x run).
Proof.
  intros Hok Hrun. induction Hrun as [|y run Hrun IH Hy]; simpl.
  - repeat constructor.
  - inversion Hok as [|? ? Hx Hok']; subst.
    inversion Hok' as [|? ? Hyok Hrunok]; subst.
    destruct (lt (key x) (key y)) eqn:Hlt.
    + constructor; [constructor; assumption|].
      constructor; [apply lt_asym; assumption|].
      rewrite Forall_forall in *. intros z Hz.
      apply (lt_negtrans (key x) (key y) (key z)); auto.
      * apply Hy. assumption.
    + constructor.
      * apply IH. constructor; assumption.
      * eapply Permutation_Forall.
        -- symmetry. apply insert_sorted_perm.
        -- constructor; assumption.
Qed.

Lemma insert_sorted_stable (k : K) (x : A) (run : list A) :
  keys_ok (x :: run) -> StronglySorted ascending run ->
  filter (fun a => eq (key a) k) (insert_sorted key lt x run) =
  filter (fun a => eq (key a) k) run ++ filter (fun a => eq (key a) k) [x].
Proof.
  intros Hok Hrun. set (p := fun a => eq (key a) k).
  induction Hrun as [|y run Hrun IH Hy].
  - reflexivity.
  - inversion Hok as [|? ? Hx Hok']; subst.
    inversion Hok' as [|? ? Hyok Hrunok]; subst.
    simpl insert_sorted. destruct (lt (key x) (key y)) eqn:Hlt.
    + assert (Hnone : p x = true -> filter p (y :: run) = []).
      { intros Hxk.
        assert (Hall : Forall (fun a => p a = false) (y :: run)).
        { apply Forall_forall. intros z Hz.
          destruct (p z) eqn:Hzk; [|reflexivity]. exfalso.
          assert (Hyz : lt (key z) (key y) = false).
          { destruct Hz as [<-|Hz].
            - apply (eq_not_lt _ _ k); assumption.
            - rewrite Forall_forall in Hy. apply Hy. assumption. }
          assert (Hzok : ok (key z)).
          { rewrite Forall_forall in Hok'. auto. }
          pose proof (lt_negtrans (key y) (key z) (key x) Hyok Hzok Hx Hyz
                        (eq_not_lt _ _ k Hxk Hzk)) as Hcontra.
          congruence. }
        clear - Hall. induction Hall as [|z l Hz _ IHl]; simpl; [reflexivity|].
        rewrite Hz. assumption. }
      change (filter p (x :: y :: run))
        with (if p x then x :: filter p (y :: run) else filter p (y :: run)).
      change (filter p [x]) with (if p x then [x] else []).
      destruct (p x).
      * rewrite Hnone by reflexivity. reflexivity.
      * rewrite app_nil_r. reflexivity.
    + change (filter p (y :: insert_sorted key lt x run))
        with (if p y then y :: filter p (insert_sorted key lt x run)
              else filter p (insert_sorted key lt x run)).
      rewrite IH by (constructor; assumption).
      change (filter p (y :: run)) with (if p y then y :: filter p run else filter p run).
      destruct (p y); reflexivity.
Qed.

Lemma fold_insert_sorted (l : list A) : forall run : list A,
  keys_ok (run ++ l) -> StronglySorted ascending run ->
  StronglySorted ascending (fold_left (fun run x => insert_sorted key lt x run) l run) /\
  forall k, filter (fun a => eq (key a) k)
              (fold_left (fun run x => insert_sorted key lt x run) l run) =
            filter (fun a => eq (key a) k) (run ++ l).
Proof.
  induction l as [|x l IH]; intros run Hok Hrun; simpl.
  - rewrite app_nil_r. auto.
  - assert (Hxrun : keys_ok (x :: run)).
    { unfold keys_ok in *. rewrite Forall_app in Hok. destruct Hok as [H1 H2].
      inversion H2; subst. constructor; assumption. }
    assert (Hok' : keys_ok (insert_sorted key lt x run ++ l)).
    { unfold keys_ok in *. rewrite Forall_app in *. destruct Hok as [H1 H2].
      inversion H2; subst. split; [|assumption].
      eapply Permutation_Forall; [symmetry; apply insert_sorted_perm|assumption]. }
    destruct (IH _ Hok' (insert_sorted_sorted x run Hxrun Hrun)) as [Hs Hf].
    split; [assumption|]. intros k.
    rewrite Hf. change (x :: l) with ([x] ++ l).
    rewrite !filter_app, (insert_sorted_stable k x run Hxrun Hrun).
    rewrite <- app_assoc. reflexivity.
Qed.

(** With [reverse=True] the list comes out descending, and the items that
    compare equal to any one key keep the order they had. *)
Lemma list_sort_reverse_sorted (l : list A) :
  keys_ok l ->
  StronglySorted (fun a b => lt (key a) (key b) = false) (list_sort key lt true l) /\
  forall k, filter (fun a => eq (key a) k) (list_sort key lt true l) =
            filter (fun a => eq (key a) k) l.
Proof.
  intros Hok. unfold list_sort, binarysort.
  assert (Hrev : keys_ok ([] ++ rev l)).
  { unfold keys_ok. simpl. apply Forall_rev. assumption. }
  destruct (fold_insert_sorted (rev l) [] Hrev (SSorted_nil _)) as [Hs Hf].
  split.
  - apply (StronglySorted_rev ascending). assumption.
  - intros k. rewrite filter_rev, Hf. simpl. rewrite filter_rev, rev_involutive.
    reflexivity.
Qed.

Lemma list_sort_perm (reverse : bool) (l : list A) :
  Permutation (list_sort key lt reverse l) l.
Proof.
  assert (Hfold : forall l run,
            Permutation (fold_left (fun run x => insert_sorted key lt x run) l run)
                        (run ++ l)).
  { clear. induction l as [|x l IH]; intros run; simpl.
    - rewrite app_nil_r. reflexivity.
    - rewrite IH, insert_sorted_perm. apply Permutation_middle. }
  unfold list_sort, binarysort. destruct reverse.
  - rewrite <- Permutation_rev, Hfold. simpl. symmetry. apply Permutation_rev.
  - rewrite Hfold. reflexivity.
Qed.
End SortFacts.

(** The order of binary64, for the sort of [search_similar_words]. *)

Lemma not_nan_spec (x : float) : not_nan x -> sf_is_nan (Prim2SF x) = false.
Proof.
  unfold not_nan. rewrite eqb_refl_spec. destruct (sf_is_nan (Prim2SF x)); auto.
Qed.

Lemma ltb_asym (a b : float) : (a <? b)%float = true -> (b <? a)%float = false.
Proof. rewrite !ltb_spec. apply SFltb_asym. Qed.

Lemma ltb_negtrans (a b c : float) :
  not_nan a -> not_nan b -> not_nan c ->
  (b <? a)%float = false -> (c <? b)%float = false -> (c <? a)%float = false.
Proof.
  rewrite !ltb_spec. intros Ha Hb Hc Hba Hcb.
  apply (SFltb_negtrans (Prim2SF a) (Prim2SF b) (Prim2SF c));
    auto using not_nan_spec.
Qed.

Lemma eqb_not_ltb (a b k : float) :
  (a =? k)%float = true -> (b =? k)%float = true -> (a <? b)%float = false.
Proof. rewrite !FloatAxioms.eqb_spec, ltb_spec. apply SFeqb_not_ltb. Qed.

Lemma ltb_false_leb (a b : float) :
  not_nan a -> not_nan b -> (a <? b)%float = false -> (b <=? a)%float = true.
Proof.
  rewrite ltb_spec, leb_spec. intros. apply SFltb_false_leb; auto using not_nan_spec.
Qed.

(** * The store *)

Lemma dict_setitem_keys {V : Type} (d : dict V) (k0 : string) (v : V) (k : string) :
  In k (dict_keys (dict_setitem d k0 v)) <-> k = k0 \/ In k (dict_keys d).
Proof.
  induction d as [|[k' v'] d IH]; simpl.
  - intuition.
  - destruct (String.eqb_spec k' k0) as [->|Hne]; simpl.
    + intuition.
    + rewrite IH. intuition.
Qed.

Section StoreFacts.
Variable embed_content : list string -> string -> result (list float).

Lemma add_word_success (word meaning status : string) (w : World) (e : list float) :
  embed_content (requests w) word = Ok e ->
  add_word embed_content word meaning status w =
  (Ok tt,
   {| word_store :=
        {| embeddings := dict_setitem (embeddings (word_store w)) word e;
           words := dict_setitem (words (word_store w)) word
                      {| meaning := meaning; status := status |} |};
      requests := requests w ++ [word] |}).
Proof.
  intros He.
  unfold add_word, try_except, bind, get_text_embedding, try_except, genai_embed.
  rewrite He. reflexivity.
Qed.

Lemma add_word_failure (word meaning status : string) (w : World) (e : exn) :
  embed_content (requests w) word = Raise e ->
  add_word embed_content word meaning status w =
  (Ok tt, {| word_store := word_store w; requests := requests w ++ [word] |}).
Proof.
  intros He.
  unfold add_word, try_except, bind, get_text_embedding, try_except, genai_embed.
  rewrite He. reflexivity.
Qed.

(** [add_word] returns normally, whatever the provider does. *)
Lemma add_word_returns (word meaning status : string) (w : World) :
  fst (add_word embed_content word meaning status w) = Ok tt.
Proof.
  destruct (embed_content (requests w) word) as [e|e] eqn:He.
  - rewrite (add_word_success _ _ _ _ _ He). reflexivity.
  - rewrite (add_word_failure _ _ _ _ _ He). reflexivity.
Qed.

Lemma add_word_lockstep (word meaning status : string) (w : World) :
  lockstep (word_store w) ->
  lockstep (word_store (snd (add_word embed_content word meaning status w))).
Proof.
  intros Hinv.
  destruct (embed_content (requests w) word) as [e|e] eqn:He.
  - rewrite (add_word_success _ _ _ _ _ He). simpl. intros k. simpl.
    rewrite !dict_setitem_keys, (Hinv k). reflexivity.
  - rewrite (add_word_failure _ _ _ _ _ He). exact Hinv.
Qed.

Lemma add_words_batch_lockstep (words_list : list (dict string)) : forall w : World,
  lockstep (word_store w) ->
  lockstep (word_store (snd (add_words_batch embed_content words_list w))).
Proof.
  induction words_list as [|d l IH]; intros w Hinv; simpl.
  - exact Hinv.
  - unfold add_words_batch in *. simpl for_each. unfold bind at 1. unfold bind at 1.
    unfold lift at 1.
    destruct (dict_getitem d "english") as [english|e]; [|exact Hinv].
    unfold bind at 1. unfold lift at 1.
    destruct (dict_getitem d "japanese") as [japanese|e]; [|exact Hinv].
    pose proof (add_word_returns english japanese (dict_get_default d "status" "new") w)
      as Hret.
    pose proof (add_word_lockstep english japanese (dict_get_default d "status" "new") w
                  Hinv) as Hstep.
    destruct (add_word embed_content english japanese _ w) as [r w'].
    simpl in Hret, Hstep. subst r. apply IH. exact Hstep.
Qed.
End StoreFacts.

Lemma for_append_pure {A B : Type} (body : A -> M B) (f : A -> result B) (w : World) :
  (forall x, body x w = (f x, w)) ->
  forall l, for_append l body w = (collect f l, w).
Proof.
  intros Hbody. induction l as [|x l IH]; simpl; [reflexivity|].
  unfold bind at 1. rewrite Hbody. destruct (f x) as [b|e]; simpl; [|reflexivity].
  unfold bind at 1. rewrite IH. destruct (collect f l); reflexivity.
Qed.

Lemma slice_to_nil {A : Type} (stop : Z) : slice_to (@nil A) stop = [].
Proof. unfold slice_to. destruct (stop <? 0)%Z; apply firstn_nil. Qed.

Lemma slice_to_firstn {A : Type} (l : list A) (stop : Z) :
  exists n : nat, slice_to l stop = firstn n l.
Proof. unfold slice_to. destruct (stop <? 0)%Z; eauto. Qed.

Section SearchFacts.
Variable embed_content : list string -> string -> result (list float).

Lemma search_empty (target_text : string) (limit : Z) (w : World) :
  embeddings (word_store w) = [] ->
  search_similar_words embed_content target_text limit w = (Ok [], w).
Proof.
  intros Hempty. unfold search_similar_words, bind, get_store.
  rewrite Hempty. reflexivity.
Qed.

Lemma search_failure (target_text : string) (limit : Z) (w : World) (e : exn) :
  embeddings (word_store w) <> [] ->
  embed_content (requests w) target_text = Raise e ->
  search_similar_words embed_content target_text limit w =
  (Ok [], {| word_store := word_store w; requests := requests w ++ [target_text] |}).
Proof.
  intros Hne He. unfold search_similar_words, bind at 1, get_store at 1.
  destruct (embeddings (word_store w)) as [|item items]; [contradiction|].
  unfold try_except at 1, bind at 1, get_text_embedding, try_except, genai_embed.
  rewrite He. reflexivity.
Qed.

Lemma search_success (target_text : string) (limit : Z) (w : World)
    (target_embedding : list float) :
  embeddings (word_store w) <> [] ->
  embed_content (requests w) target_text = Ok target_embedding ->
  search_similar_words embed_content target_text limit w =
  (Ok (slice_to (ranking (word_store w) target_embedding) limit),
   {| word_store := word_store w; requests := requests w ++ [target_text] |}).
Proof.
  intros Hne He. unfold search_similar_words, bind at 1, get_store at 1.
  destruct (embeddings (word_store w)) as [|item items] eqn:Hitems; [contradiction|].
  unfold try_except at 1, bind at 1, get_text_embedding, try_except, genai_embed.
  rewrite He. unfold bind at 1, get_store at 1. simpl word_store. rewrite Hitems.
  unfold bind at 1.
  rewrite (for_append_pure _ (score_item (word_store w) target_embedding)).
  - unfold ranking, similarities. rewrite Hitems.
    destruct (collect _ (item :: items)) as [sims|e']; [reflexivity|].
    rewrite slice_to_nil. reflexivity.
  - intros [word embedding]. unfold score_item, bind, lift, get_store, ret. simpl.
    destruct (cosine_similarity target_embedding embedding); simpl; [|reflexivity].
    destruct (dict_getitem (words (word_store w)) word); reflexivity.
Qed.
End SearchFacts.

Lemma dict_getitem_key {V : Type} (d : dict V) (k : string) :
  In k (dict_keys d) -> exists v, dict_getitem d k = Ok v.
Proof.
  unfold dict_getitem. induction d as [|[k' v'] d IH]; simpl; [tauto|].
  intros [->|Hin].
  - rewrite String.eqb_refl. eauto.
  - destruct (String.eqb k' k); eauto.
Qed.

Lemma collect_total {A B : Type} (f : A -> result B) (l : list A) :
  (forall x, In x l -> exists b, f x = Ok b) ->
  exists bs, collect f l = Ok bs /\ Forall2 (fun x b => f x = Ok b) l bs.
Proof.
  induction l as [|x l IH]; intros Hf; simpl.
  - exists []. split; [reflexivity|constructor].
  - destruct (Hf x (or_introl eq_refl)) as [b Hb].
    destruct IH as [bs [Hbs Hall]]; [intros y Hy; apply Hf; right; exact Hy|].
    exists (b :: bs). rewrite Hb, Hbs. split; [reflexivity|].
    constructor; assumption.
Qed.

(** In a store whose mappings agree the loop does not raise: it yields one
    item per stored word, in the order of the mapping. *)
Lemma similarities_lockstep (self : WordEmbeddingStore) (target : list float) :
  lockstep self ->
  exists sims,
    similarities self target = Ok sims /\
    map s_word sims = dict_keys (embeddings self) /\
    Forall2 (fun item sw => cosine_similarity target (snd item) = Ok (similarity sw))
            (embeddings self) sims.
Proof.
  intros Hinv. unfold similarities.
  destruct (collect_total (score_item self target) (embeddings self)) as [sims [Hc Hall]].
  { intros [word embedding] Hin. unfold score_item. simpl.
    rewrite cosine_similarity_eq. simpl.
    destruct (dict_getitem_key (words self) word) as [data Hdata].
    - apply Hinv. unfold dict_keys. apply (in_map fst) in Hin. exact Hin.
    - rewrite Hdata. simpl. eauto. }
  exists sims. split; [exact Hc|].
  clear Hc. unfold dict_keys. induction Hall as [|item sw items sims Hitem _ IH].
  - split; [reflexivity|constructor].
  - destruct IH as [IHw IHs]. unfold score_item in Hitem.
    destruct (cosine_similarity target (snd item)) as [sim|e] eqn:Hcos; [|discriminate].
    simpl in Hitem. destruct (dict_getitem (words self) (fst item)); [|discriminate].
    injection Hitem as <-. simpl. split; [f_equal; exact IHw|].
    constructor; [exact Hcos|exact IHs].
Qed.

Lemma StronglySorted_adjacent {A : Type} (R : A -> A -> Prop) (l : list A) :
  StronglySorted R l ->
  forall (i : nat) (a b : A),
    nth_error l i = Some a -> nth_error l (S i) = Some b -> R a b.
Proof.
  induction 1 as [|x l Hl IH Hx]; intros i a b Ha Hb.
  - destruct i; discriminate.
  - destruct i as [|i]; simpl in Ha, Hb.
    + injection Ha as <-. destruct l as [|y l]; [discriminate|].
      injection Hb as <-. inversion Hx; assumption.
    + eapply IH; eassumption.
Qed.

(** The ranking of numbers: descending, ties in the order of [sims]. *)
Lemma ranking_sorted (sims : list ScoredWord) :
  Forall (fun sw => not_nan (similarity sw)) sims ->
  StronglySorted (fun a b => (similarity b <=? similarity a)%float = true)
    (list_sort similarity PrimFloat.ltb true sims) /\
  forall k : float,
    filter (fun sw => (similarity sw =? k)%float)
      (list_sort similarity PrimFloat.ltb true sims) =
    filter (fun sw => (similarity sw =? k)%float) sims.
Proof.
  intros Hok.
  destruct (list_sort_reverse_sorted similarity PrimFloat.ltb PrimFloat.eqb not_nan
              ltb_asym ltb_negtrans eqb_not_ltb sims Hok) as [Hsorted Hstable].
  split; [|exact Hstable].
  apply (StronglySorted_impl (fun sw => not_nan (similarity sw))
           (fun a b => (similarity a <? similarity b)%float = false)).
  - intros a b Ha Hb Hab. apply ltb_false_leb; assumption.
  - eapply Permutation_Forall; [symmetry; apply list_sort_perm|exact Hok].
  - exact Hsorted.
Qed.

(** * The claims about the store *)

(** C1, as stated, fails for a negative limit: with three words stored,
    [limit = -1] returns the two best instead of nothing. *)
Lemma search_negative_limit_counterexample :
  (-1 <= 0)%Z /\
  sample_provider (requests sample_world) "move" = Ok [1%float; 1%float] /\
  exists r, fst (search_similar_words sample_provider "move" (-1) sample_world) = Ok r /\
            map s_word r = ["walk"; "go"].
Proof.
  split; [lia|]. split; [reflexivity|].
  eexists. split; reflexivity.
Qed.

(** C1 (amended): when the embedding fetch for the query succeeds,
    [search_similar_words] returns the ranking cut by [[:limit]]: at most
    [limit] entries when [limit >= 0], none when [limit = 0], and for a
    negative [limit] the ranking without its last [-limit] entries. The
    ranking has one entry per stored word. *)
Theorem search_limit (embed_content : list string -> string -> result (list float))
    (w : World) (target_text : string) (target_embedding : list float) :
  embed_content (requests w) target_text = Ok target_embedding ->
  exists ranked : list ScoredWord,
    (lockstep (word_store w) ->
     List.length ranked = List.length (embeddings (word_store w))) /\
    forall limit : Z,
      fst (search_similar_words embed_content target_text limit w)
      = Ok (slice_to ranked limit) /\
      ((0 <= limit)%Z -> (Z.of_nat (List.length (slice_to ranked limit)) <= limit)%Z) /\
      (limit = 0%Z -> slice_to ranked limit = []) /\
      ((limit < 0)%Z ->
       slice_to ranked limit = firstn (List.length ranked - Z.to_nat (- limit)) ranked).
Proof.
  intros He. exists (ranking (word_store w) target_embedding). split.
  - intros Hinv. unfold ranking.
    destruct (similarities_lockstep (word_store w) target_embedding Hinv)
      as [sims [Hsims [Hwords _]]].
    rewrite Hsims, (Permutation_length (list_sort_perm _ _ _ _)).
    rewrite <- (length_map s_word), Hwords. unfold dict_keys. apply length_map.
  - intros limit. split; [|split; [|split]].
    + destruct (embeddings (word_store w)) as [|item items] eqn:Hitems.
      * rewrite search_empty by assumption. unfold ranking, similarities.
        rewrite Hitems. simpl. rewrite slice_to_nil. reflexivity.
      * rewrite (search_success _ _ _ _ target_embedding); [reflexivity| |assumption].
        rewrite Hitems. discriminate.
    + intros Hlimit. unfold slice_to.
      destruct (limit <? 0)%Z eqn:Hneg; [apply Z.ltb_lt in Hneg; lia|].
      pose proof (firstn_le_length (Z.to_nat limit)
                    (ranking (word_store w) target_embedding)). lia.
    + intros ->. reflexivity.
    + intros Hlimit. unfold slice_to.
      destruct (limit <? 0)%Z eqn:Hneg; [reflexivity|apply Z.ltb_ge in Hneg; lia].
Qed.

Lemma search_limit_witness :
  sample_provider (requests sample_world) "move" = Ok [1%float; 1%float] /\
  exists ranked : list ScoredWord,
    fst (search_similar_words sample_provider "move" 2 sample_world)
    = Ok (slice_to ranked 2).
Proof.
  split; [reflexivity|].
  destruct (search_limit sample_provider sample_world "move" [1%float; 1%float] eq_refl)
    as [ranked [_ Hall]].
  exists ranked. exact (proj1 (Hall 2%Z)).
Defined.

Section StoreClaims.
Variable embed_content : list string -> string -> result (list float).

(** C2: every public operation keeps the key sets of the two mappings
    equal, and a failed embedding fetch in [add_word] leaves the store as it
    was. *)
Theorem store_lockstep (w : World) :
  lockstep (word_store w) ->
  (forall word meaning status,
     lockstep (word_store (snd (add_word embed_content word meaning status w)))) /\
  (forall words_list,
     lockstep (word_store (snd (add_words_batch embed_content words_list w)))) /\
  (forall target_text limit,
     lockstep (word_store
                 (snd (search_similar_words embed_content target_text limit w)))) /\
  lockstep (word_store (snd (get_all_words w))) /\
  lockstep (word_store (snd (clear w))) /\
  (forall word meaning status e,
     embed_content (requests w) word = Raise e ->
     word_store (snd (add_word embed_content word meaning status w)) = word_store w).
Proof.
  intros Hinv. split; [|split; [|split; [|split; [|split]]]].
  - intros. apply add_word_lockstep; assumption.
  - intros. apply add_words_batch_lockstep; assumption.
  - intros target_text limit.
    destruct (embeddings (word_store w)) as [|item items] eqn:Hitems.
    + rewrite search_empty by assumption. apply Hinv.
    + destruct (embed_content (requests w) target_text) as [t|e] eqn:He.
      * rewrite (search_success _ _ _ _ t); [apply Hinv| |assumption].
        rewrite Hitems. discriminate.
      * rewrite (search_failure _ _ _ _ e); [apply Hinv| |assumption].
        rewrite Hitems. discriminate.
  - apply Hinv.
  - intros k. reflexivity.
  - intros word meaning status e He.
    rewrite (add_word_failure _ _ _ _ _ _ He). reflexivity.
Qed.

(** C4: on a non-empty store, a query whose embedding fetch raises gets
    the empty list back; the exception does not leave
    [search_similar_words], and the store is untouched. *)
Theorem search_swallows_failure (w : World) (target_text : string) (limit : Z)
    (e : exn) :
  embeddings (word_store w) <> [] ->
  embed_content (requests w) target_text = Raise e ->
  search_similar_words embed_content target_text limit w =
  (Ok [], {| word_store := word_store w; requests := requests w ++ [target_text] |}).
Proof. apply search_failure. Qed.

(** C6: on an empty store [search_similar_words] returns the empty list
    at once: the world, and with it the record of the requests made to the
    provider, is unchanged. *)
Theorem search_empty_store (w : World) (target_text : string) (limit : Z) :
  embeddings (word_store w) = [] ->
  search_similar_words embed_content target_text limit w = (Ok [], w).
Proof. apply search_empty. Qed.
End StoreClaims.

Lemma sample_world_lockstep : lockstep (word_store sample_world).
Proof. intros k. reflexivity. Qed.

Lemma store_lockstep_witness :
  lockstep (word_store sample_world) /\
  word_store (snd (add_word sample_provider "???" "nani" "new" sample_world))
  = word_store sample_world.
Proof.
  split; [exact sample_world_lockstep|].
  apply (store_lockstep sample_provider sample_world sample_world_lockstep)
    with (e := ProviderError).
  reflexivity.
Defined.

Lemma search_swallows_failure_witness :
  embeddings (word_store sample_world) <> [] /\
  fst (search_similar_words sample_provider "???" 3 sample_world) = Ok [].
Proof.
  assert (Hne : embeddings (word_store sample_world) <> []) by discriminate.
  split; [exact Hne|].
  rewrite (search_swallows_failure sample_provider sample_world "???" 3 ProviderError
             Hne eq_refl).
  reflexivity.
Defined.

Lemma search_empty_store_witness :
  embeddings (word_store new_world) = [] /\
  search_similar_words sample_provider "move" 3 new_world = (Ok [], new_world).
Proof.
  split; [reflexivity|].
  exact (search_empty_store sample_provider new_world "move" 3 eq_refl).
Defined.

(** C3, as stated, fails when a similarity is not a number: the ranking
    then holds a NaN next to a number, and neither is [>=] the other. *)
Lemma search_sorted_counterexample :
  embeddings (word_store overflow_world) <> [] /\
  sample_provider (requests overflow_world) "huge" = Ok [0x1p600%float; 0%float] /\
  exists a b,
    fst (search_similar_words sample_provider "huge" 5 overflow_world) = Ok [a; b] /\
    (similarity b <=? similarity a)%float = false.
Proof.
  split; [discriminate|]. split; [reflexivity|].
  do 2 eexists. split; reflexivity.
Qed.

(** C3 (amended): on a non-empty store whose mappings agree, for a query
    whose embedding fetch succeeds and whose similarity to every stored word
    is a number, the list [search_similar_words] returns is descending by
    similarity, each entry [>=] the next, and the entries of equal similarity
    stand in the order of the embedding mapping. *)
Theorem search_sorted_stable
    (embed_content : list string -> string -> result (list float))
    (w : World) (target_text : string) (limit : Z) (target_embedding : list float) :
  embeddings (word_store w) <> [] ->
  lockstep (word_store w) ->
  embed_content (requests w) target_text = Ok target_embedding ->
  (forall item s, In item (embeddings (word_store w)) ->
                  cosine_similarity target_embedding (snd item) = Ok s -> not_nan s) ->
  exists sims r : list ScoredWord,
    similarities (word_store w) target_embedding = Ok sims /\
    map s_word sims = dict_keys (embeddings (word_store w)) /\
    fst (search_similar_words embed_content target_text limit w) = Ok r /\
    (forall i a b, nth_error r i = Some a -> nth_error r (S i) = Some b ->
                   (similarity b <=? similarity a)%float = true) /\
    (forall k : float, exists rest,
       filter (fun sw => (similarity sw =? k)%float) sims =
       filter (fun sw => (similarity sw =? k)%float) r ++ rest).
Proof.
  intros Hne Hinv He Hnum.
  destruct (similarities_lockstep (word_store w) target_embedding Hinv)
    as [sims [Hsims [Hwords Hcos]]].
  assert (Hok : Forall (fun sw => not_nan (similarity sw)) sims).
  { clear - Hcos Hnum. revert Hnum.
    induction Hcos as [|item sw items sims Hitem _ IH]; intros Hnum; constructor.
    - apply (Hnum item); [left; reflexivity|exact Hitem].
    - apply IH. intros item' s Hin. apply Hnum. right. exact Hin. }
  destruct (ranking_sorted sims Hok) as [Hsorted Hstable].
  exists sims, (slice_to (ranking (word_store w) target_embedding) limit).
  rewrite (search_success _ _ _ _ target_embedding Hne He).
  unfold ranking. rewrite Hsims.
  destruct (slice_to_firstn (list_sort similarity PrimFloat.ltb true sims) limit)
    as [n ->].
  split; [reflexivity|]. split; [exact Hwords|]. split; [reflexivity|]. split.
  - apply (StronglySorted_adjacent
             (fun a b => (similarity b <=? similarity a)%float = true)).
    apply StronglySorted_firstn. exact Hsorted.
  - intros k. exists (filter (fun sw => (similarity sw =? k)%float)
                        (skipn n (list_sort similarity PrimFloat.ltb true sims))).
    rewrite <- filter_app, firstn_skipn. symmetry. apply Hstable.
Qed.

Lemma search_sorted_stable_witness :
  exists sims r : list ScoredWord,
    map s_word sims = ["go"; "run"; "walk"] /\
    fst (search_similar_words sample_provider "move" 5 sample_world) = Ok r.
Proof.
  assert (Hne : embeddings (word_store sample_world) <> []) by discriminate.
  assert (Hnum : forall item s,
            In item (embeddings (word_store sample_world)) ->
            cosine_similarity [1%float; 1%float] (snd item) = Ok s -> not_nan s).
  { intros item s [<-|[<-|[<-|[]]]] Hs; injection Hs as <-; reflexivity. }
  destruct (search_sorted_stable sample_provider sample_world "move" 5
              [1%float; 1%float] Hne sample_world_lockstep eq_refl Hnum)
    as [sims [r [_ [Hwords [Hr _]]]]].
  exists sims, r. split; [exact Hwords|exact Hr].
Defined.

Lemma for_each_cons {A : Type} (x : A) (l : list A) (body : A -> M unit) (w : World) :
  for_each (x :: l) body w =
  match body x w with
  | (Ok _, w') => for_each l body w'
  | (Raise e, w') => (Raise e, w')
  end.
Proof. reflexivity. Qed.

Section BatchClaims.
Variable embed_content : list string -> string -> result (list float).

Lemma add_words_batch_fold (entries : list (string * string * option string)) :
  forall w : World,
    add_words_batch embed_content (map word_data entries) w =
    (Ok tt, fold_left (add_entry embed_content) entries w).
Proof.
  unfold add_words_batch.
  set (body := fun word_data : dict string => _).
  induction entries as [|[[en ja] st] entries IH]; intros w; [reflexivity|].
  change (map word_data ((en, ja, st) :: entries))
    with (word_data (en, ja, st) :: map word_data entries).
  rewrite for_each_cons.
  assert (Hbody : body (word_data (en, ja, st)) w =
                  add_word embed_content en ja
                    (match st with Some s => s | None => "new" end) w).
  { subst body. unfold bind, lift. destruct st; reflexivity. }
  rewrite Hbody.
  pose proof (add_word_returns embed_content en ja
                (match st with Some s => s | None => "new" end) w) as Hret.
  simpl fold_left.
  change (add_entry embed_content w (en, ja, st))
    with (snd (add_word embed_content en ja
                 (match st with Some s => s | None => "new" end) w)).
  destruct (add_word embed_content en ja _ w) as [r w'].
  simpl in Hret. subst r. apply IH.
Qed.

Lemma add_entry_requests (w : World) (e : string * string * option string) :
  requests (add_entry embed_content w e) = requests w ++ [english e].
Proof.
  destruct e as [[en ja] st]. unfold add_entry, english. simpl.
  destruct (embed_content (requests w) en) as [v|x] eqn:He.
  - rewrite (add_word_success _ _ _ _ _ _ He). reflexivity.
  - rewrite (add_word_failure _ _ _ _ _ _ He). reflexivity.
Qed.

Lemma add_entry_keys (w : World) (e : string * string * option string) (k : string) :
  (In k (dict_keys (embeddings (word_store (add_entry embed_content w e)))) <->
   In k (dict_keys (embeddings (word_store w))) \/
   (k = english e /\ returned (embed_content (requests w) (english e)))) /\
  (In k (dict_keys (words (word_store (add_entry embed_content w e)))) <->
   In k (dict_keys (words (word_store w))) \/
   (k = english e /\ returned (embed_content (requests w) (english e)))).
Proof.
  destruct e as [[en ja] st]. unfold add_entry, english. simpl.
  destruct (embed_content (requests w) en) as [v|x] eqn:He.
  - rewrite (add_word_success _ _ _ _ _ _ He). simpl.
    rewrite !dict_setitem_keys. tauto.
  - rewrite (add_word_failure _ _ _ _ _ _ He). simpl. tauto.
Qed.

(** C5: [add_words_batch] is [add_word] on each entry in turn and returns
    normally whatever the provider does; after a batch of three entries the
    store holds, besides what it held, exactly the words of the entries
    whose embedding fetch succeeded. *)
Theorem add_words_batch_isolates_failures :
  (forall entries w,
     add_words_batch embed_content (map word_data entries) w =
     (Ok tt, fold_left (add_entry embed_content) entries w)) /\
  (forall e1 e2 e3 w,
     let w' := snd (add_words_batch embed_content
                      [word_data e1; word_data e2; word_data e3] w) in
     let fetched k :=
       (k = english e1 /\ returned (embed_content (requests w) (english e1))) \/
       (k = english e2 /\
        returned (embed_content (requests w ++ [english e1]) (english e2))) \/
       (k = english e3 /\
        returned (embed_content (requests w ++ [english e1] ++ [english e2])
                    (english e3))) in
     fst (add_words_batch embed_content
            [word_data e1; word_data e2; word_data e3] w) = Ok tt /\
     forall k,
       (In k (dict_keys (embeddings (word_store w'))) <->
        In k (dict_keys (embeddings (word_store w))) \/ fetched k) /\
       (In k (dict_keys (words (word_store w'))) <->
        In k (dict_keys (words (word_store w))) \/ fetched k)).
Proof.
  split; [exact add_words_batch_fold|].
  intros e1 e2 e3 w.
  change [word_data e1; word_data e2; word_data e3]
    with (map word_data [e1; e2; e3]).
  rewrite add_words_batch_fold. simpl. split; [reflexivity|]. intros k.
  destruct (add_entry_keys (add_entry embed_content (add_entry embed_content w e1) e2) e3 k)
    as [H3e H3w].
  destruct (add_entry_keys (add_entry embed_content w e1) e2 k) as [H2e H2w].
  destruct (add_entry_keys w e1 k) as [H1e H1w].
  rewrite !add_entry_requests, <- app_assoc in H3e, H3w.
  rewrite add_entry_requests in H2e, H2w.
  rewrite H3e, H3w, H2e, H2w, H1e, H1w. tauto.
Qed.
End BatchClaims.

Example add_words_batch_scenario :
  add_words_batch sample_provider
    [entry "go" "iku"; entry "???" "nani"; entry "run" "hashiru"] new_world =
  (Ok tt,
   {| word_store :=
        {| embeddings := [("go", [1%float; 0%float]); ("run", [0%float; 1%float])];
           words := [("go", {| meaning := "iku"; status := "new" |});
                     ("run", {| meaning := "hashiru"; status := "new" |})] |};
      requests := ["go"; "???"; "run"] |}).
Proof. reflexivity. Qed.

Lemma dict_setitem_twice {V : Type} (d : dict V) (k : string) (v1 v2 : V) :
  dict_setitem (dict_setitem d k v1) k v2 = dict_setitem d k v2.
Proof.
  induction d as [|[k' v'] d IH]; simpl.
  - rewrite String.eqb_refl. reflexivity.
  - destruct (String.eqb k' k) eqn:Hk; simpl.
    + rewrite String.eqb_refl. reflexivity.
    + rewrite Hk, IH. reflexivity.
Qed.

Lemma dict_setitem_filter_same {V : Type} (d : dict V) (k : string) (v : V) :
  NoDup (dict_keys d) ->
  filter (fun item => String.eqb (fst item) k) (dict_setitem d k v) = [(k, v)].
Proof.
  induction d as [|[k' v'] d IH]; intros Hnd; simpl.
  - rewrite String.eqb_refl. reflexivity.
  - inversion Hnd as [|? ? Hnotin Hnd']; subst.
    destruct (String.eqb_spec k' k) as [->|Hne]; simpl.
    + rewrite String.eqb_refl. f_equal.
      clear - Hnotin. induction d as [|[k' v'] d IH]; simpl; [reflexivity|].
      destruct (String.eqb_spec k' k) as [->|Hne].
      * exfalso. apply Hnotin. left. reflexivity.
      * apply IH. intros Hin. apply Hnotin. right. exact Hin.
    + destruct (String.eqb_spec k' k) as [->|_]; [contradiction|].
      apply IH. exact Hnd'.
Qed.

Lemma dict_setitem_filter_other {V : Type} (d : dict V) (k other : string) (v : V) :
  other <> k ->
  filter (fun item => String.eqb (fst item) other) (dict_setitem d k v) =
  filter (fun item => String.eqb (fst item) other) d.
Proof.
  intros Hne. induction d as [|[k' v'] d IH]; simpl.
  - destruct (String.eqb_spec k other) as [->|_]; [contradiction|reflexivity].
  - destruct (String.eqb_spec k' k) as [->|Hk]; simpl.
    + destruct (String.eqb_spec k other) as [->|_]; [contradiction|reflexivity].
    + rewrite IH. reflexivity.
Qed.

Lemma filter_word_info (d : dict Meta) (k : string) :
  filter (fun i => String.eqb (w_word i) k) (map word_info d) =
  map word_info (filter (fun item => String.eqb (fst item) k) d).
Proof.
  induction d as [|item d IH]; simpl; [reflexivity|].
  destruct (String.eqb (fst item) k); simpl; rewrite IH; reflexivity.
Qed.

(** C7: a word added twice, both fetches succeeding, has exactly one entry
    in [get_all_words], with the meaning and status of the second call; the
    entries of every other word, however close in spelling, are as they
    were. *)
Theorem add_word_last_write_wins
    (embed_content : list string -> string -> result (list float))
    (w : World) (word meaning1 status1 meaning2 status2 : string)
    (e1 e2 : list float) :
  NoDup (dict_keys (words (word_store w))) ->
  embed_content (requests w) word = Ok e1 ->
  embed_content (requests w ++ [word]) word = Ok e2 ->
  let w2 := snd (add_word embed_content word meaning2 status2
                   (snd (add_word embed_content word meaning1 status1 w))) in
  exists all before : list WordInfo,
    get_all_words w2 = (Ok all, w2) /\
    get_all_words w = (Ok before, w) /\
    filter (fun i => String.eqb (w_word i) word) all =
    [{| w_word := word; w_meaning := meaning2; w_status := status2 |}] /\
    forall other, other <> word ->
      filter (fun i => String.eqb (w_word i) other) all =
      filter (fun i => String.eqb (w_word i) other) before.
Proof.
  intros Hnd He1 He2.
  rewrite (add_word_success _ _ _ _ _ _ He1). simpl snd.
  match goal with
  | |- context [add_word _ _ _ _ ?w1] =>
      rewrite (add_word_success embed_content word meaning2 status2 w1 e2 He2)
  end.
  simpl. rewrite !dict_setitem_twice.
  exists (map word_info (dict_setitem (words (word_store w)) word
                           {| meaning := meaning2; status := status2 |})),
         (map word_info (words (word_store w))).
  split; [reflexivity|]. split; [reflexivity|]. split.
  - rewrite filter_word_info, dict_setitem_filter_same by assumption. reflexivity.
  - intros other Hne.
    rewrite !filter_word_info, dict_setitem_filter_other by assumption. reflexivity.
Qed.

Lemma add_word_last_write_wins_witness :
  exists all : list WordInfo,
    filter (fun i => String.eqb (w_word i) "go") all =
    [{| w_word := "go"; w_meaning := "yuku"; w_status := "mastered" |}] /\
    filter (fun i => String.eqb (w_word i) "Go") all = [].
Proof.
  assert (Hnd : NoDup (dict_keys (words (word_store sample_world)))).
  { repeat constructor; simpl; intuition discriminate. }
  destruct (add_word_last_write_wins sample_provider sample_world
              "go" "iku" "new" "yuku" "mastered" [1%float; 0%float] [1%float; 0%float]
              Hnd eq_refl eq_refl) as [all [before [_ [Hb [Hsame Hother]]]]].
  exists all. split; [exact Hsame|].
  rewrite (Hother "Go") by discriminate.
  injection Hb as <-. reflexivity.
Defined.

Example keys_are_case_sensitive :
  fst (get_all_words
         (snd (add_words_batch sample_provider
                 [entry "go" "iku"; entry "Go" "go (game)"] new_world))) =
  Ok [{| w_word := "go"; w_meaning := "iku"; w_status := "new" |};
      {| w_word := "Go"; w_meaning := "go (game)"; w_status := "new" |}].
Proof. reflexivity. Qed.

(** * Further properties of [embeddings.py] *)

Lemma SFmul_comm (x y : spec_float) : SF64mul x y = SF64mul y x.
Proof.
  unfold SF64mul, SFmul.
  destruct x as [sx|sx| |sx mx ex], y as [sy|sy| |sy my ey];
    rewrite ?(xorb_comm sx sy); try reflexivity.
  rewrite (Pos.mul_comm mx my), (Z.add_comm ex ey). reflexivity.
Qed.

Lemma float_mul_comm (x y : float) : (x * y)%float = (y * x)%float.
Proof. apply Prim2SF_inj. rewrite !mul_spec. apply SFmul_comm. Qed.

Lemma dot_product_comm (vec1 : list float) : forall vec2 : list float,
  dot_product vec1 vec2 = dot_product vec2 vec1.
Proof.
  unfold dot_product. intros vec2. f_equal. revert vec2.
  induction vec1 as [|a vec1 IH]; intros [|b vec2]; simpl; try reflexivity.
  rewrite IH, (float_mul_comm a b). reflexivity.
Qed.

(** X1: on binary64 the similarity does not depend on the order of its two
    arguments, whatever their lengths. *)
Theorem cosine_similarity_symmetric (vec1 vec2 : list float) :
  cosine_similarity vec1 vec2 = cosine_similarity vec2 vec1.
Proof.
  rewrite !cosine_similarity_eq.
  rewrite (dot_product_comm vec1 vec2).
  rewrite (float_mul_comm (magnitude vec1) (magnitude vec2)).
  rewrite (orb_comm (magnitude vec1 =? 0)%float). reflexivity.
Qed.

Lemma dict_get_setitem_same {V : Type} (d : dict V) (k : string) (v : V) :
  dict_get (dict_setitem d k v) k = Some v.
Proof.
  induction d as [|[k' v'] d IH]; simpl.
  - rewrite String.eqb_refl. reflexivity.
  - destruct (String.eqb k' k) eqn:Hk; simpl.
    + rewrite String.eqb_refl. reflexivity.
    + rewrite Hk. exact IH.
Qed.

Lemma dict_get_setitem_other {V : Type} (d : dict V) (k other : string) (v : V) :
  other <> k -> dict_get (dict_setitem d k v) other = dict_get d other.
Proof.
  intros Hne. induction d as [|[k' v'] d IH]; simpl.
  - destruct (String.eqb_spec k other) as [->|_]; [contradiction|reflexivity].
  - destruct (String.eqb_spec k' k) as [->|Hk]; simpl.
    + destruct (String.eqb_spec k other) as [->|_]; [contradiction|reflexivity].
    + rewrite IH. reflexivity.
Qed.

Lemma dict_setitem_keys_order {V : Type} (d : dict V) (k : string) (v : V) :
  dict_keys (dict_setitem d k v) =
  if existsb (String.eqb k) (dict_keys d) then dict_keys d else dict_keys d ++ [k].
Proof.
  unfold dict_keys. induction d as [|[k' v'] d IH]; simpl; [reflexivity|].
  rewrite (String.eqb_sym k k').
  destruct (String.eqb_spec k' k) as [->|Hne]; simpl; [reflexivity|].
  rewrite IH.
  destruct (existsb (String.eqb k) (map fst d)); reflexivity.
Qed.

Lemma existsb_eqb_In (k : string) (l : list string) :
  existsb (String.eqb k) l = true <-> In k l.
Proof.
  rewrite existsb_exists. split.
  - intros [x [Hin Heq]]. apply String.eqb_eq in Heq. subst. exact Hin.
  - intros Hin. exists k. split; [exact Hin|apply String.eqb_refl].
Qed.

Lemma dict_setitem_NoDup {V : Type} (d : dict V) (k : string) (v : V) :
  NoDup (dict_keys d) -> NoDup (dict_keys (dict_setitem d k v)).
Proof.
  intros Hnd. rewrite dict_setitem_keys_order.
  destruct (existsb (String.eqb k) (dict_keys d)) eqn:Hex; [exact Hnd|].
  apply NoDup_app; [exact Hnd|repeat constructor; simpl; tauto|].
  intros x Hx [<-|[]]. apply existsb_eqb_In in Hx. congruence.
Qed.

Section StoreProperties.
Variable embed_content : list string -> string -> result (list float).

(** X2: after an [add_word] whose fetch succeeded, looking the word up gives
    the fetched embedding and the given meaning and status; every other word
    is as it was. *)
Theorem add_word_then_lookup (w : World) (word meaning status : string)
    (e : list float) :
  embed_content (requests w) word = Ok e ->
  let self := word_store (snd (add_word embed_content word meaning status w)) in
  dict_getitem (embeddings self) word = Ok e /\
  dict_getitem (words self) word = Ok {| meaning := meaning; status := status |} /\
  forall other, other <> word ->
    dict_get (embeddings self) other = dict_get (embeddings (word_store w)) other /\
    dict_get (words self) other = dict_get (words (word_store w)) other.
Proof.
  intros He. rewrite (add_word_success _ _ _ _ _ _ He). simpl.
  unfold dict_getitem. rewrite !dict_get_setitem_same.
  split; [reflexivity|]. split; [reflexivity|].
  intros other Hne. rewrite !dict_get_setitem_other by assumption. auto.
Qed.

(** X3: [get_all_words] lists the words in insertion order: a successful
    [add_word] of a new word puts it last, one of a stored word leaves the
    order as it is. *)
Theorem add_word_insertion_order (w : World) (word meaning status : string)
    (e : list float) :
  embed_content (requests w) word = Ok e ->
  let w' := snd (add_word embed_content word meaning status w) in
  exists before after : list WordInfo,
    get_all_words w = (Ok before, w) /\
    get_all_words w' = (Ok after, w') /\
    map w_word after =
    if existsb (String.eqb word) (map w_word before)
    then map w_word before
    else map w_word before ++ [word].
Proof.
  intros He. rewrite (add_word_success _ _ _ _ _ _ He). simpl.
  do 2 eexists. split; [reflexivity|]. split; [reflexivity|].
  rewrite !map_map. simpl.
  apply (dict_setitem_keys_order (words (word_store w)) word).
Qed.

Lemma add_word_keys_in_order (w : World) (word meaning status : string) :
  keys_in_order (word_store w) ->
  keys_in_order (word_store (snd (add_word embed_content word meaning status w))).
Proof.
  intros [Hnd Heq].
  destruct (embed_content (requests w) word) as [e|e] eqn:He.
  - rewrite (add_word_success _ _ _ _ _ _ He). simpl. split; simpl.
    + apply dict_setitem_NoDup. exact Hnd.
    + rewrite !dict_setitem_keys_order, Heq. reflexivity.
  - rewrite (add_word_failure _ _ _ _ _ _ He). split; assumption.
Qed.

Lemma for_each_invariant {A : Type} (P : World -> Prop) (body : A -> M unit) :
  (forall x w, P w -> P (snd (body x w))) ->
  forall l w, P w -> P (snd (for_each l body w)).
Proof.
  intros Hbody. induction l as [|x l IH]; intros w Hw; [exact Hw|].
  rewrite for_each_cons. specialize (Hbody x w Hw).
  destruct (body x w) as [[[]|e] w']; simpl in Hbody; [apply IH|]; exact Hbody.
Qed.

Lemma add_words_batch_invariant (P : World -> Prop) :
  (forall word meaning status w,
     P w -> P (snd (add_word embed_content word meaning status w))) ->
  forall words_list w, P w -> P (snd (add_words_batch embed_content words_list w)).
Proof.
  intros Hadd. unfold add_words_batch. apply for_each_invariant.
  intros d w Hw. unfold bind, lift.
  destruct (dict_getitem d "english") as [en|e]; [|exact Hw].
  destruct (dict_getitem d "japanese") as [ja|e]; [|exact Hw].
  apply Hadd. exact Hw.
Qed.

(** X4: starting from the empty store, every operation keeps each word a
    key once, at the same place in the embedding mapping and in the metadata
    mapping. *)
Theorem store_keys_in_order :
  keys_in_order (word_store new_world) /\
  forall w, keys_in_order (word_store w) ->
    (forall word meaning status,
       keys_in_order (word_store (snd (add_word embed_content word meaning status w)))) /\
    (forall words_list,
       keys_in_order (word_store (snd (add_words_batch embed_content words_list w)))) /\
    keys_in_order (word_store (snd (clear w))).
Proof.
  split; [split; [constructor|reflexivity]|].
  intros w Hw. split; [|split].
  - intros. apply add_word_keys_in_order. exact Hw.
  - intros words_list.
    apply (add_words_batch_invariant (fun w => keys_in_order (word_store w)));
      [intros; apply add_word_keys_in_order; assumption|exact Hw].
  - split; [constructor|reflexivity].
Qed.

Lemma add_word_requests (w : World) (word meaning status : string) :
  requests (snd (add_word embed_content word meaning status w)) = requests w ++ [word].
Proof.
  destruct (embed_content (requests w) word) as [e|e] eqn:He.
  - rewrite (add_word_success _ _ _ _ _ _ He). reflexivity.
  - rewrite (add_word_failure _ _ _ _ _ _ He). reflexivity.
Qed.

Lemma fold_add_entry_requests (entries : list (string * string * option string)) :
  forall w, requests (fold_left (add_entry embed_content) entries w) =
            requests w ++ map english entries.
Proof.
  induction entries as [|e entries IH]; intros w; simpl.
  - rewrite app_nil_r. reflexivity.
  - rewrite IH, add_entry_requests, <- app_assoc. reflexivity.
Qed.

(** X5: [add_word] sends the provider one request, the word itself and
    never the meaning, whether the fetch succeeds or not; [add_words_batch]
    sends one request per entry, in the order of the entries. *)
Theorem provider_requests :
  (forall w word meaning status,
     requests (snd (add_word embed_content word meaning status w)) =
     requests w ++ [word]) /\
  (forall entries w,
     requests (snd (add_words_batch embed_content (map word_data entries) w)) =
     requests w ++ map english entries).
Proof.
  split; [intros; apply add_word_requests|].
  intros entries w. rewrite add_words_batch_fold. simpl.
  apply fold_add_entry_requests.
Qed.

Lemma for_each_app {A : Type} (l1 l2 : list A) (body : A -> M unit) :
  forall w, for_each (l1 ++ l2) body w =
            match for_each l1 body w with
            | (Ok _, w') => for_each l2 body w'
            | (Raise e, w') => (Raise e, w')
            end.
Proof.
  induction l1 as [|x l1 IH]; intros w; [reflexivity|].
  simpl app. rewrite !for_each_cons.
  destruct (body x w) as [[[]|e] w']; [apply IH|reflexivity].
Qed.

Lemma add_words_batch_abort (before : list (string * string * option string))
    (word_data_bad : dict string) (after : list (dict string)) (w : World) :
  dict_get word_data_bad "english" = None \/
  dict_get word_data_bad "japanese" = None ->
  add_words_batch embed_content (map word_data before ++ word_data_bad :: after) w =
  (Raise KeyError, fold_left (add_entry embed_content) before w).
Proof.
  intros Hmissing.
  pose proof (add_words_batch_fold embed_content before w) as Hbefore.
  unfold add_words_batch in *. rewrite for_each_app, Hbefore, for_each_cons.
  unfold bind, lift, dict_getitem.
  destruct Hmissing as [Hen|Hja].
  - rewrite Hen. reflexivity.
  - rewrite Hja. destruct (dict_get word_data_bad "english"); reflexivity.
Qed.

(** X6: an entry without the key ["english"], or without ["japanese"],
    makes [add_words_batch] raise [KeyError]: the entries before it have been
    added, the entry itself causes no request, the entries after it are not
    looked at. *)
Theorem add_words_batch_missing_key
    (before : list (string * string * option string))
    (word_data_bad : dict string) (after : list (dict string)) (w : World) :
  dict_get word_data_bad "english" = None \/
  dict_get word_data_bad "japanese" = None ->
  add_words_batch embed_content (map word_data before ++ word_data_bad :: after) w =
  (Raise KeyError, fold_left (add_entry embed_content) before w) /\
  requests (fold_left (add_entry embed_content) before w) =
  requests w ++ map english before.
Proof.
  intros Hmissing. split.
  - apply add_words_batch_abort. exact Hmissing.
  - apply fold_add_entry_requests.
Qed.

(** X7: [search_similar_words] never changes the store, and it sends the
    provider one request, the query text, unless the store is empty, when it
    sends none. *)
Theorem search_is_read_only (w : World) (target_text : string) (limit : Z) :
  let w' := snd (search_similar_words embed_content target_text limit w) in
  word_store w' = word_store w /\
  requests w' =
  match embeddings (word_store w) with
  | [] => requests w
  | _ :: _ => requests w ++ [target_text]
  end.
Proof.
  destruct (embeddings (word_store w)) as [|item items] eqn:Hitems.
  - rewrite search_empty by assumption. split; reflexivity.
  - assert (Hne : embeddings (word_store w) <> []) by (rewrite Hitems; discriminate).
    destruct (embed_content (requests w) target_text) as [t|e] eqn:He.
    + rewrite (search_success _ _ _ _ t Hne He). split; reflexivity.
    + rewrite (search_failure _ _ _ _ e Hne He). split; reflexivity.
Qed.

(** X10: after [clear] the store is empty: [get_all_words] returns [[]],
    and [search_similar_words] returns [[]] without a request to the
    provider. *)
Theorem clear_empties_store (w : World) (target_text : string) (limit : Z) :
  let w0 := snd (clear w) in
  fst (clear w) = Ok tt /\
  requests w0 = requests w /\
  get_all_words w0 = (Ok [], w0) /\
  search_similar_words embed_content target_text limit w0 = (Ok [], w0).
Proof.
  split; [reflexivity|]. split; [reflexivity|]. split; [reflexivity|].
  apply search_empty. reflexivity.
Qed.
End StoreProperties.

Lemma add_word_then_lookup_witness :
  sample_provider (requests sample_world) "swim" = Ok [1%float; 1%float] /\
  dict_getitem
    (embeddings (word_store (snd (add_word sample_provider "swim" "oyogu" "new"
                                    sample_world)))) "swim"
  = Ok [1%float; 1%float].
Proof.
  split; [reflexivity|].
  exact (proj1 (add_word_then_lookup sample_provider sample_world "swim" "oyogu" "new"
                  [1%float; 1%float] eq_refl)).
Defined.

Lemma add_word_insertion_order_witness :
  exists after : list WordInfo,
    fst (get_all_words (snd (add_word sample_provider "swim" "oyogu" "new" sample_world)))
    = Ok after /\
    map w_word after = ["go"; "run"; "walk"; "swim"].
Proof.
  destruct (add_word_insertion_order sample_provider sample_world "swim" "oyogu" "new"
              [1%float; 1%float] eq_refl) as [before [after [Hb [Ha Horder]]]].
  exists after. split; [rewrite Ha; reflexivity|].
  injection Hb as <-. exact Horder.
Defined.

Lemma add_words_batch_missing_key_witness :
  dict_get [("japanese", "hashiru")] "english" = None /\
  add_words_batch sample_provider
    (map word_data [("go", "iku", None)]
     ++ [("japanese", "hashiru")] :: [entry "walk" "aruku"]) new_world =
  (Raise KeyError, fold_left (add_entry sample_provider) [("go", "iku", None)] new_world).
Proof.
  split; [reflexivity|].
  apply (add_words_batch_missing_key sample_provider). left. reflexivity.
Defined.

Lemma store_keys_in_order_witness :
  keys_in_order (word_store sample_world) /\
  keys_in_order
    (word_store (snd (add_word sample_provider "go" "yuku" "mastered" sample_world))).
Proof.
  assert (H : keys_in_order (word_store sample_world)).
  { split; [repeat constructor; simpl; intuition discriminate|reflexivity]. }
  split; [exact H|].
  apply (proj2 (store_keys_in_order sample_provider) sample_world H).
Defined.

Lemma collect_Forall2 {A B : Type} (f : A -> result B) (l : list A) :
  forall bs, collect f l = Ok bs -> Forall2 (fun x b => f x = Ok b) l bs.
Proof.
  induction l as [|x l IH]; simpl; intros bs Hbs.
  - injection Hbs as <-. constructor.
  - destruct (f x) as [b|e] eqn:Hx; [|discriminate]. simpl in Hbs.
    destruct (collect f l) as [bs'|e]; [|discriminate]. simpl in Hbs.
    injection Hbs as <-. constructor; auto.
Qed.

Lemma Forall2_In_right {A B : Type} (R : A -> B -> Prop) (l : list A) (bs : list B) :
  Forall2 R l bs -> forall b, In b bs -> exists x, In x l /\ R x b.
Proof.
  induction 1 as [|x b0 l bs Hx _ IH]; intros b Hb; [contradiction|].
  destruct Hb as [<-|Hb].
  - exists x. split; [left; reflexivity|exact Hx].
  - destruct (IH b Hb) as [x' [Hin HR]]. exists x'. split; [right; exact Hin|exact HR].
Qed.

(** An item of the ranking comes from an item of the embedding mapping. *)
Lemma ranking_item (self : WordEmbeddingStore) (target : list float) (sw : ScoredWord) :
  In sw (ranking self target) ->
  exists embedding,
    In (s_word sw, embedding) (embeddings self) /\
    cosine_similarity target embedding = Ok (similarity sw) /\
    dict_getitem (words self) (s_word sw) =
    Ok {| meaning := s_meaning sw; status := s_status sw |}.
Proof.
  unfold ranking, similarities.
  destruct (collect (score_item self target) (embeddings self)) as [sims|e] eqn:Hc;
    [|contradiction].
  intros Hin.
  apply (Permutation_in _ (list_sort_perm similarity PrimFloat.ltb true sims)) in Hin.
  destruct (Forall2_In_right _ _ _ (collect_Forall2 _ _ _ Hc) sw Hin)
    as [[word embedding] [Hitem Hscore]].
  unfold score_item in Hscore. simpl in Hscore.
  destruct (cosine_similarity target embedding) as [sim|e] eqn:Hcos; [|discriminate].
  simpl in Hscore.
  destruct (dict_getitem (words self) word) as [[m s]|e] eqn:Hdata; [|discriminate].
  injection Hscore as <-. simpl. exists embedding.
  split; [exact Hitem|]. split; [exact Hcos|exact Hdata].
Qed.

Section SearchProperties.
Variable embed_content : list string -> string -> result (list float).

Lemma search_result_ranking (w : World) (target_text : string) (limit : Z)
    (target_embedding : list float) :
  embed_content (requests w) target_text = Ok target_embedding ->
  fst (search_similar_words embed_content target_text limit w) =
  Ok (slice_to (ranking (word_store w) target_embedding) limit).
Proof.
  intros He. destruct (embeddings (word_store w)) as [|item items] eqn:Hitems.
  - rewrite search_empty by assumption. unfold ranking, similarities.
    rewrite Hitems. simpl. rewrite slice_to_nil. reflexivity.
  - rewrite (search_success _ _ _ _ target_embedding); [reflexivity| |assumption].
    rewrite Hitems. discriminate.
Qed.

Lemma search_result_cases (w : World) (target_text : string) (limit : Z) :
  fst (search_similar_words embed_content target_text limit w) = Ok [] \/
  exists target_embedding,
    embed_content (requests w) target_text = Ok target_embedding /\
    fst (search_similar_words embed_content target_text limit w) =
    Ok (slice_to (ranking (word_store w) target_embedding) limit).
Proof.
  destruct (embed_content (requests w) target_text) as [t|e] eqn:He.
  - right. exists t. split; [reflexivity|]. apply search_result_ranking. exact He.
  - left. destruct (embeddings (word_store w)) as [|item items] eqn:Hitems.
    + rewrite search_empty by assumption. reflexivity.
    + rewrite (search_failure _ _ _ _ e); [reflexivity| |assumption].
      rewrite Hitems. discriminate.
Qed.

(** X8: every entry [search_similar_words] returns is a stored word, with
    the meaning and status stored for it and, as similarity, the cosine
    similarity of the query embedding and the embedding stored for it. *)
Theorem search_returns_stored_words (w : World) (target_text : string) (limit : Z)
    (r : list ScoredWord) (sw : ScoredWord) :
  fst (search_similar_words embed_content target_text limit w) = Ok r ->
  In sw r ->
  exists target_embedding embedding,
    embed_content (requests w) target_text = Ok target_embedding /\
    In (s_word sw, embedding) (embeddings (word_store w)) /\
    cosine_similarity target_embedding embedding = Ok (similarity sw) /\
    dict_getitem (words (word_store w)) (s_word sw) =
    Ok {| meaning := s_meaning sw; status := s_status sw |}.
Proof.
  intros Hr Hin.
  destruct (search_result_cases w target_text limit) as [Hnil|[t [He Hrank]]];
    rewrite Hr in *.
  - injection Hnil as ->. contradiction.
  - injection Hrank as ->.
    destruct (slice_to_firstn (ranking (word_store w) t) limit) as [n Hn].
    rewrite Hn in Hin. apply firstn_incl in Hin.
    destruct (ranking_item _ _ _ Hin) as [embedding Hitem].
    exists t, embedding. split; [exact He|exact Hitem].
Qed.

(** X9: with a limit that is at least the number of stored words, a search
    whose fetch succeeds returns every stored word exactly once. *)
Theorem search_returns_every_word (w : World) (target_text : string) (limit : Z)
    (target_embedding : list float) :
  lockstep (word_store w) ->
  embed_content (requests w) target_text = Ok target_embedding ->
  (Z.of_nat (List.length (embeddings (word_store w))) <= limit)%Z ->
  exists r : list ScoredWord,
    fst (search_similar_words embed_content target_text limit w) = Ok r /\
    Permutation (map s_word r) (dict_keys (embeddings (word_store w))).
Proof.
  intros Hinv He Hlimit.
  rewrite (search_result_ranking _ _ _ _ He). eexists. split; [reflexivity|].
  unfold ranking.
  destruct (similarities_lockstep (word_store w) target_embedding Hinv)
    as [sims [Hsims [Hwords _]]].
  rewrite Hsims, <- Hwords.
  assert (Hlen : List.length (list_sort similarity PrimFloat.ltb true sims)
                 = List.length (embeddings (word_store w))).
  { rewrite (Permutation_length (list_sort_perm _ _ _ _)).
    rewrite <- (length_map s_word), Hwords. apply length_map. }
  unfold slice_to. destruct (limit <? 0)%Z eqn:Hneg; [apply Z.ltb_lt in Hneg; lia|].
  rewrite firstn_all2 by lia.
  apply Permutation_map, list_sort_perm.
Qed.


End SearchProperties.

Lemma search_returns_stored_words_witness :
  exists r sw,
    fst (search_similar_words sample_provider "move" 1 sample_world) = Ok r /\
    In sw r /\
    dict_getitem (words (word_store sample_world)) (s_word sw) =
    Ok {| meaning := s_meaning sw; status := s_status sw |}.
Proof.
  eexists. eexists. split; [reflexivity|]. split; [left; reflexivity|].
  destruct (search_returns_stored_words sample_provider sample_world "move" 1 _ _
              eq_refl (or_introl eq_refl)) as [t [e [_ [_ [_ H]]]]].
  exact H.
Defined.

Lemma search_returns_every_word_witness :
  exists r : list ScoredWord,
    fst (search_similar_words sample_provider "move" 3 sample_world) = Ok r /\
    Permutation (map s_word r) ["go"; "run"; "walk"].
Proof.
  apply (search_returns_every_word sample_provider sample_world "move" 3
           [1%float; 1%float] sample_world_lockstep eq_refl).
  simpl. lia.
Defined.


(** * Properties of the handlers of [server.py] *)

Lemma slice_to_length {A : Type} (l : list A) (stop : Z) :
  (0 <= stop)%Z -> (Z.of_nat (List.length (slice_to l stop)) <= stop)%Z.
Proof.
  intros Hstop. unfold slice_to.
  destruct (stop <? 0)%Z eqn:Hneg; [apply Z.ltb_lt in Hneg; lia|].
  pose proof (firstn_le_length (Z.to_nat stop) l). lia.
Qed.

Lemma bind_run {A B : Type} (m : M A) (k : A -> M B) (w : World) :
  bind m k w =
  match m w with
  | (Ok a, w') => k a w'
  | (Raise e, w') => (Raise e, w')
  end.
Proof. reflexivity. Qed.

Section ServerProperties.
Variable embed_content : list string -> string -> result (list float).
Variable round3 : float -> float.
Variable str_exn : exn -> string.

Lemma fold_add_entry_keys (entries : list (string * string * option string)) :
  forall w k,
    In k (dict_keys (embeddings (word_store (fold_left (add_entry embed_content) entries w)))) ->
    In k (dict_keys (embeddings (word_store w))) \/ In k (map english entries).
Proof.
  induction entries as [|e entries IH]; intros w k Hk; simpl in *; [left; exact Hk|].
  destruct (IH _ _ Hk) as [Hin|Hin]; [|right; right; exact Hin].
  apply (proj1 (add_entry_keys embed_content w e k)) in Hin.
  destruct Hin as [Hin|[-> _]]; [left; exact Hin|right; left; reflexivity].
Qed.

Lemma fold_add_entry_keys_in_order (entries : list (string * string * option string)) :
  forall w, keys_in_order (word_store w) ->
            keys_in_order (word_store (fold_left (add_entry embed_content) entries w)).
Proof.
  induction entries as [|[[en ja] st] entries IH]; intros w Hw; simpl; [exact Hw|].
  apply IH. apply add_word_keys_in_order. exact Hw.
Qed.

Lemma load_user_words_run (data : Body) (w : World)
    (entries : list (string * string * option string)) :
  truthy (b_user_id data) = true ->
  b_words data = Some (map word_data entries) ->
  load_user_words embed_content str_exn data w =
  (Ok (JDict [("success", JBool true);
              ("message",
               JStr (String.append "Loaded "
                      (String.append (format_nat (List.length entries))
                         (String.append " words for user "
                            (format_str (b_user_id data))))))],
       200),
   fold_left (add_entry embed_content) entries (snd (clear w))).
Proof.
  intros Huser Hwords. unfold load_user_words, try_except.
  rewrite Huser, Hwords. change (negb true) with false. cbv iota.
  rewrite bind_run. change (clear w) with (Ok tt, snd (clear w)). cbv iota beta.
  rewrite bind_run, add_words_batch_fold. unfold ret.
  rewrite length_map. reflexivity.
Qed.

(** X12: a body without [user_id], or with an empty one, is answered 400
    by [load_user_words] and [get_user_word_list], and so is a body without
    [user_id] or without [text] by [search_related_words]; the store is not
    cleared and the provider is not called. *)
Theorem handlers_validate (data : Body) (w : World) :
  (truthy (b_user_id data) = false ->
   load_user_words embed_content str_exn data w =
   (Ok (JDict [("error", JStr "user_id is required")], 400), w) /\
   get_user_word_list str_exn data w =
   (Ok (JDict [("error", JStr "user_id is required")], 400), w)) /\
  (truthy (b_user_id data) = false \/ truthy (b_text data) = false ->
   search_related_words embed_content round3 str_exn data w =
   (Ok (JDict [("error", JStr "user_id and text are required")], 400), w)).
Proof.
  split.
  - intros Huser. unfold load_user_words, get_user_word_list, try_except.
    rewrite Huser. split; reflexivity.
  - intros Hmissing. unfold search_related_words, try_except.
    destruct Hmissing as [H|H]; rewrite H; rewrite ?orb_true_r; reflexivity.
Qed.

(** X13: [load_user_words] replaces the store: it answers 200 with the
    number of entries sent, whether their embeddings could be fetched or not,
    and afterwards the store holds no word that was not sent, each stored word
    once; one request per entry went to the provider. *)
Theorem load_user_words_replaces_store (data : Body) (w : World)
    (entries : list (string * string * option string)) :
  truthy (b_user_id data) = true ->
  b_words data = Some (map word_data entries) ->
  exists w',
    load_user_words embed_content str_exn data w =
    (Ok (JDict [("success", JBool true);
                ("message",
                 JStr (String.append "Loaded "
                        (String.append (format_nat (List.length entries))
                           (String.append " words for user "
                              (format_str (b_user_id data))))))],
         200),
     w') /\
    requests w' = requests w ++ map english entries /\
    keys_in_order (word_store w') /\
    forall k, In k (dict_keys (embeddings (word_store w'))) ->
              In k (map english entries).
Proof.
  intros Huser Hwords.
  exists (fold_left (add_entry embed_content) entries (snd (clear w))).
  split; [apply load_user_words_run; assumption|]. split; [|split].
  - rewrite fold_add_entry_requests. reflexivity.
  - apply fold_add_entry_keys_in_order. split; [constructor|reflexivity].
  - intros k Hk. apply fold_add_entry_keys in Hk.
    destruct Hk as [[]|Hk]. exact Hk.
Qed.

(** X14: an entry without ["english"] or ["japanese"] makes
    [load_user_words] answer 500, and the words stored before the request are
    gone: the store is left with the entries that came before the bad one. *)
Theorem load_user_words_missing_key (data : Body) (w : World)
    (before : list (string * string * option string))
    (word_data_bad : dict string) (after : list (dict string)) :
  truthy (b_user_id data) = true ->
  b_words data = Some (map word_data before ++ word_data_bad :: after) ->
  dict_get word_data_bad "english" = None \/
  dict_get word_data_bad "japanese" = None ->
  load_user_words embed_content str_exn data w =
  (Ok (JDict [("error", JStr (str_exn KeyError))], 500),
   fold_left (add_entry embed_content) before (snd (clear w))).
Proof.
  intros Huser Hwords Hmissing. unfold load_user_words, try_except.
  rewrite Huser, Hwords. change (negb true) with false. cbv iota.
  rewrite bind_run. change (clear w) with (Ok tt, snd (clear w)). cbv iota beta.
  rewrite bind_run, (add_words_batch_abort _ _ _ _ _ Hmissing).
  reflexivity.
Qed.
End ServerProperties.

Section SearchHandlerProperties.
Variable embed_content : list string -> string -> result (list float).
Variable round3 : float -> float.
Variable str_exn : exn -> string.

(** The answer of [search_related_words] to a list of similar words. *)
Lemma search_related_words_run (data : Body) (w : World) :
  truthy (b_user_id data) = true ->
  truthy (b_text data) = true ->
  exists r w',
    search_similar_words embed_content (field_value (b_text data))
      (match b_limit data with Some n => n | None => 3%Z end) w = (Ok r, w') /\
    word_store w' = word_store w /\
    search_related_words embed_content round3 str_exn data w =
    (Ok (match r with
         | [] => JDict [("related_words", JList []);
                        ("message", JStr "No similar words found")]
         | _ :: _ => JDict [("related_words", JList (map (related_word round3) r))]
         end, 200),
     w').
Proof.
  intros Huser Htext.
  set (text := field_value (b_text data)).
  set (limit := match b_limit data with Some n => n | None => 3%Z end).
  assert (Hsearch : exists r w',
            search_similar_words embed_content text limit w = (Ok r, w') /\
            word_store w' = word_store w).
  { destruct (embeddings (word_store w)) as [|item items] eqn:Hitems.
    - rewrite search_empty by assumption. eauto.
    - assert (Hne : embeddings (word_store w) <> []) by (rewrite Hitems; discriminate).
      destruct (embed_content (requests w) text) as [t|e] eqn:He.
      + rewrite (search_success _ _ _ _ t Hne He). eauto.
      + rewrite (search_failure _ _ _ _ e Hne He). eauto. }
  destruct Hsearch as [r [w' [Hrun Hstore]]].
  exists r, w'. split; [exact Hrun|]. split; [exact Hstore|].
  unfold search_related_words, try_except.
  rewrite Huser, Htext. change (negb true || negb true) with false. cbv iota.
  rewrite bind_run. fold text. fold limit. rewrite Hrun.
  destruct r; reflexivity.
Qed.

(** X15: for a body with [user_id] and [text], [search_related_words]
    answers 200 with the message "No similar words found" when the store is
    empty, when the embedding fetch for the text fails, and when [limit] is 0:
    a provider failure is not told apart from an empty result. *)
Theorem search_related_words_no_match (data : Body) (w : World) :
  truthy (b_user_id data) = true ->
  truthy (b_text data) = true ->
  embeddings (word_store w) = [] \/
  (exists e, embed_content (requests w) (field_value (b_text data)) = Raise e) \/
  b_limit data = Some 0%Z ->
  fst (search_related_words embed_content round3 str_exn data w) =
  Ok (JDict [("related_words", JList []); ("message", JStr "No similar words found")],
      200).
Proof.
  intros Huser Htext Hcase.
  destruct (search_related_words_run data w Huser Htext) as [r [w' [Hrun [_ Hans]]]].
  rewrite Hans. simpl fst.
  assert (Hr : r = []).
  { destruct (embeddings (word_store w)) as [|item items] eqn:Hitems.
    - rewrite search_empty in Hrun by assumption. congruence.
    - assert (Hne : embeddings (word_store w) <> []) by (rewrite Hitems; discriminate).
      destruct Hcase as [Hempty|[[e He]|Hzero]]; [discriminate| |].
      + rewrite (search_failure _ _ _ _ e Hne He) in Hrun. congruence.
      + rewrite Hzero in Hrun.
        destruct (embed_content (requests w) (field_value (b_text data)))
          as [t|e] eqn:He.
        * rewrite (search_success _ _ _ _ t Hne He) in Hrun.
          injection Hrun as <- _. reflexivity.
        * rewrite (search_failure _ _ _ _ e Hne He) in Hrun. congruence. }
  rewrite Hr. reflexivity.
Qed.

(** X16: for a body with [user_id] and [text], [search_related_words]
    always answers 200 and leaves the store as it was; when it lists related
    words they are stored words, at most [limit] of them for a [limit >= 0]
    and at most 3 when the body has no [limit]. *)
Theorem search_related_words_answer (data : Body) (w : World) :
  truthy (b_user_id data) = true ->
  truthy (b_text data) = true ->
  exists (answer : json) (w' : World) (r : list ScoredWord),
    search_related_words embed_content round3 str_exn data w = (Ok (answer, 200), w') /\
    word_store w' = word_store w /\
    (answer = JDict [("related_words", JList []);
                     ("message", JStr "No similar words found")] \/
     answer = JDict [("related_words", JList (map (related_word round3) r))]) /\
    (forall sw, In sw r -> In (s_word sw) (dict_keys (embeddings (word_store w)))) /\
    (forall n, b_limit data = Some n -> (0 <= n)%Z -> (Z.of_nat (List.length r) <= n)%Z) /\
    (b_limit data = None -> List.length r <= 3).
Proof.
  intros Huser Htext.
  destruct (search_related_words_run data w Huser Htext) as [r [w' [Hrun [Hstore Hans]]]].
  exists (match r with
          | [] => JDict [("related_words", JList []);
                         ("message", JStr "No similar words found")]
          | _ :: _ => JDict [("related_words", JList (map (related_word round3) r))]
          end), w', r.
  split; [exact Hans|]. split; [exact Hstore|].
  assert (Hfst : fst (search_similar_words embed_content (field_value (b_text data))
                        (match b_limit data with Some n => n | None => 3%Z end) w)
                 = Ok r) by (rewrite Hrun; reflexivity).
  assert (Hlen : forall limit,
            fst (search_similar_words embed_content (field_value (b_text data)) limit w)
            = Ok r ->
            (0 <= limit)%Z -> (Z.of_nat (List.length r) <= limit)%Z).
  { intros limit Hl Hpos.
    destruct (search_result_cases embed_content w (field_value (b_text data)) limit)
      as [Hnil|[t [_ Hrank]]]; rewrite Hl in *.
    - injection Hnil as ->. simpl. exact Hpos.
    - injection Hrank as ->. apply slice_to_length. exact Hpos. }
  split; [destruct r; auto|]. split; [|split].
  - intros sw Hin.
    destruct (search_result_cases embed_content w (field_value (b_text data))
                (match b_limit data with Some n => n | None => 3%Z end))
      as [Hnil|[t [_ Hrank]]]; rewrite Hfst in *.
    + injection Hnil as ->. contradiction.
    + injection Hrank as ->.
      destruct (slice_to_firstn (ranking (word_store w) t)
                  (match b_limit data with Some n => n | None => 3%Z end)) as [k Hk].
      rewrite Hk in Hin. apply firstn_incl in Hin.
      destruct (ranking_item _ _ _ Hin) as [embedding [Hitem _]].
      apply (in_map fst) in Hitem. exact Hitem.
  - intros n Hn Hpos. rewrite Hn in Hfst. apply Hlen; assumption.
  - intros Hnone. rewrite Hnone in Hfst.
    pose proof (Hlen 3%Z Hfst ltac:(lia)). lia.
Qed.

(** X17: after a [load_user_words] that answered 200, [get_user_word_list]
    answers 200 with one entry per stored word and their number as
    [total_words], which is at most the number of entries that were sent. *)
Theorem word_list_after_load (load_body list_body : Body) (w : World)
    (entries : list (string * string * option string)) :
  truthy (b_user_id load_body) = true ->
  b_words load_body = Some (map word_data entries) ->
  truthy (b_user_id list_body) = true ->
  let w' := snd (load_user_words embed_content str_exn load_body w) in
  exists words_json : list json,
    get_user_word_list str_exn list_body w' =
    (Ok (JDict [("user_id", JStr (format_str (b_user_id list_body)));
                ("total_words", JInt (Z.of_nat (List.length words_json)));
                ("words", JList words_json)],
         200),
     w') /\
    List.length words_json = List.length (words (word_store w')) /\
    List.length words_json <= List.length entries.
Proof.
  intros Huser Hwords Hlist.
  rewrite (load_user_words_run embed_content str_exn load_body w entries Huser Hwords).
  simpl snd. set (w' := fold_left (add_entry embed_content) entries (snd (clear w))).
  exists (map word_info_json (map word_info (words (word_store w')))).
  split; [|split].
  - rewrite (length_map word_info_json).
    unfold get_user_word_list, try_except. rewrite Hlist.
    change (negb true) with false. cbv iota. reflexivity.
  - rewrite !length_map. reflexivity.
  - rewrite !length_map.
    assert (Hord : keys_in_order (word_store w')).
    { apply fold_add_entry_keys_in_order. split; [constructor|reflexivity]. }
    destruct Hord as [Hnd Heq].
    rewrite <- (length_map fst (words (word_store w'))).
    change (map fst (words (word_store w'))) with (dict_keys (words (word_store w'))).
    rewrite <- Heq, <- (length_map english entries).
    apply NoDup_incl_length; [exact Hnd|].
    intros k Hk. apply (fold_add_entry_keys embed_content) in Hk.
    destruct Hk as [[]|Hk]. exact Hk.
Qed.
End SearchHandlerProperties.

Lemma handlers_validate_witness :
  truthy None = false /\
  search_related_words sample_provider (fun x => x) (fun _ => "error")
    {| b_user_id := None; b_words := None; b_text := Some "move"; b_limit := None |}
    sample_world =
  (Ok (JDict [("error", JStr "user_id and text are required")], 400), sample_world).
Proof.
  split; [reflexivity|].
  apply (handlers_validate sample_provider (fun x => x) (fun _ => "error")).
  left. reflexivity.
Defined.

Lemma load_user_words_replaces_store_witness :
  exists w',
    snd (load_user_words sample_provider (fun _ => "error")
           {| b_user_id := Some "u1";
              b_words := Some (map word_data [("swim", "oyogu", None)]);
              b_text := None; b_limit := None |}
           sample_world) = w' /\
    forall k, In k (dict_keys (embeddings (word_store w'))) -> In k ["swim"].
Proof.
  destruct (load_user_words_replaces_store sample_provider (fun _ => "error")
              {| b_user_id := Some "u1";
                 b_words := Some (map word_data [("swim", "oyogu", None)]);
                 b_text := None; b_limit := None |}
              sample_world [("swim", "oyogu", None)] eq_refl eq_refl)
    as [w' [Hrun [_ [_ Hkeys]]]].
  exists w'. split; [rewrite Hrun; reflexivity|exact Hkeys].
Defined.

Lemma load_user_words_missing_key_witness :
  fst (load_user_words sample_provider (fun _ => "error")
         {| b_user_id := Some "u1";
            b_words := Some (map word_data [("swim", "oyogu", None)]
                             ++ [("japanese", "hashiru")] :: []);
            b_text := None; b_limit := None |}
         sample_world) =
  Ok (JDict [("error", JStr "error")], 500).
Proof.
  rewrite (load_user_words_missing_key sample_provider (fun _ => "error")
             {| b_user_id := Some "u1";
                b_words := Some (map word_data [("swim", "oyogu", None)]
                                 ++ [("japanese", "hashiru")] :: []);
                b_text := None; b_limit := None |}
             sample_world [("swim", "oyogu", None)] [("japanese", "hashiru")] []
             eq_refl eq_refl (or_introl eq_refl)).
  reflexivity.
Defined.

Lemma search_related_words_no_match_witness :
  sample_provider (requests sample_world) "???" = Raise ProviderError /\
  fst (search_related_words sample_provider (fun x => x) (fun _ => "error")
         {| b_user_id := Some "u1"; b_words := None;
            b_text := Some "???"; b_limit := None |}
         sample_world) =
  Ok (JDict [("related_words", JList []); ("message", JStr "No similar words found")],
      200).
Proof.
  split; [reflexivity|].
  apply (search_related_words_no_match sample_provider (fun x => x) (fun _ => "error"));
    [reflexivity|reflexivity|].
  right. left. exists ProviderError. reflexivity.
Defined.

Lemma search_related_words_answer_witness :
  exists (answer : json) (w' : World),
    search_related_words sample_provider (fun x => x) (fun _ => "error")
      {| b_user_id := Some "u1"; b_words := None;
         b_text := Some "move"; b_limit := None |}
      sample_world = (Ok (answer, 200), w') /\
    word_store w' = word_store sample_world.
Proof.
  destruct (search_related_words_answer sample_provider (fun x => x) (fun _ => "error")
              {| b_user_id := Some "u1"; b_words := None;
                 b_text := Some "move"; b_limit := None |}
              sample_world eq_refl eq_refl) as [answer [w' [r [Hrun [Hstore _]]]]].
  exists answer, w'. split; [exact Hrun|exact Hstore].
Defined.

Lemma word_list_after_load_witness :
  exists words_json : list json,
    fst (get_user_word_list (fun _ => "error")
           {| b_user_id := Some "u1"; b_words := None; b_text := None; b_limit := None |}
           (snd (load_user_words sample_provider (fun _ => "error")
                   {| b_user_id := Some "u1";
                      b_words := Some (map word_data [("go", "iku", None);
                                                      ("go", "yuku", None);
                                                      ("???", "nani", None)]);
                      b_text := None; b_limit := None |}
                   sample_world))) =
    Ok (JDict [("user_id", JStr "u1");
               ("total_words", JInt (Z.of_nat (List.length words_json)));
               ("words", JList words_json)], 200) /\
    List.length words_json <= 3.
Proof.
  destruct (word_list_after_load sample_provider (fun _ => "error")
              {| b_user_id := Some "u1";
                 b_words := Some (map word_data [("go", "iku", None);
                                                 ("go", "yuku", None);
                                                 ("???", "nani", None)]);
                 b_text := None; b_limit := None |}
              {| b_user_id := Some "u1"; b_words := None; b_text := None;
                 b_limit := None |}
              sample_world
              [("go", "iku", None); ("go", "yuku", None); ("???", "nani", None)]
              eq_refl eq_refl eq_refl) as [words_json [Hrun [_ Hlen]]].
  exists words_json. split; [rewrite Hrun; reflexivity|exact Hlen].
Defined.

Example load_then_list :
  fst (get_user_word_list (fun _ => "error")
         {| b_user_id := Some "u1"; b_words := None; b_text := None; b_limit := None |}
         (snd (load_user_words sample_provider (fun _ => "error")
                 {| b_user_id := Some "u1";
                    b_words := Some [entry "go" "iku"; entry "go" "yuku";
                                     entry "???" "nani"];
                    b_text := None; b_limit := None |}
                 sample_world))) =
  Ok (JDict [("user_id", JStr "u1");
             ("total_words", JInt 1);
             ("words", JList [JDict [("word", JStr "go"); ("meaning", JStr "yuku");
                                     ("status", JStr "new")]])], 200).
Proof. reflexivity. Qed.
